(** * devia-orm: statement builder, metadata registry and record accessor

    A shallow embedding of the TypeScript sources
      - core/QueryBuilder.ts      (module [QueryBuilder])
      - utils/MetadataStorage.ts  (module [MetadataStorage])
      - decorators/column.ts, decorators/table.ts (module [Decorators])
      - core/Database.ts          (module [Database])
      - core/Model.ts             (module [Model])
    followed by the properties proved about them. *)

From Stdlib Require Import String Ascii List ZArith Bool Lia.
From Stdlib Require Import Numbers.DecimalString Sorting.Permutation.
Import ListNotations.
Set Warnings "-register-all".
Open Scope list_scope.
Open Scope string_scope.

(* ================================================================== *)
(** ** JavaScript values and the string primitives the sources call *)
(* ================================================================== *)

Module JS.

(** Runtime values.  [JNumber] carries the integer-valued numbers
    (identifiers, limits, offsets, counters); a plain object is the list
    of its own enumerable properties in the order [Object.keys]
    enumerates them. *)
Inductive JSValue : Type :=
| JUndefined
| JNull
| JBool (b : bool)
| JNumber (n : Z)
| JString (s : string)
| JArray (xs : list JSValue)
| JObject (props : list (string * JSValue)).

Definition Object := list (string * JSValue).

(** Exceptions: [new Error(message)] and the engine's [TypeError]. *)
Inductive Exception : Type :=
| Error (message : string)
| TypeError (message : string).

Inductive Result (A : Type) : Type :=
| Ok (a : A)
| Throw (e : Exception).
Arguments Ok {A} a.
Arguments Throw {A} e.

(** [v !== undefined] *)
Definition defined (v : JSValue) : bool :=
  match v with JUndefined => false | _ => true end.

(** [v === null || v === undefined] *)
Definition nullish (v : JSValue) : bool :=
  match v with JUndefined | JNull => true | _ => false end.

(** Property read [o.k] on a plain object: the first own property named
    [k], [undefined] when there is none. *)
Fixpoint lookup (k : string) (props : Object) : JSValue :=
  match props with
  | [] => JUndefined
  | (k', v) :: rest => if String.eqb k k' then v else lookup k rest
  end.

(** Property read on an arbitrary non-nullish value; the primitives and
    arrays have none of the properties the sources probe for. *)
Definition getProp (v : JSValue) (k : string) : JSValue :=
  match v with
  | JObject props => lookup k props
  | _ => JUndefined
  end.

Definition keys (o : Object) : list string := map fst o.
Definition values (o : Object) : list JSValue := map snd o.

(** [Array.prototype.join] on an array of strings. *)
Definition join (sep : string) (parts : list string) : string :=
  String.concat sep parts.

(** Decimal rendering of a number ([String(n)] for |n| < 10^21). *)
Definition numberToString (n : Z) : string :=
  NilZero.string_of_int (Z.to_int n).

(** [String(v)]. Array elements that are [null] or [undefined] render as
    the empty string, a plain object as ["[object Object]"]. *)
Fixpoint toString (v : JSValue) : string :=
  match v with
  | JUndefined => "undefined"
  | JNull => "null"
  | JBool true => "true"
  | JBool false => "false"
  | JNumber n => numberToString n
  | JString s => s
  | JArray xs =>
      join ","
        (map (fun x => match x with
                       | JUndefined | JNull => ""
                       | _ => toString x
                       end) xs)
  | JObject _ => "[object Object]"
  end.

(** [s.replace(/'/g, "''")] *)
Fixpoint replaceQuotes (s : string) : string :=
  match s with
  | EmptyString => EmptyString
  | String c rest =>
      if Ascii.eqb c "'"%char
      then String "'" (String "'" (replaceQuotes rest))
      else String c (replaceQuotes rest)
  end.

Definition lowerChar (c : ascii) : ascii :=
  let n := nat_of_ascii c in
  if (65 <=? n)%nat && (n <=? 90)%nat then ascii_of_nat (n + 32) else c.

Definition upperChar (c : ascii) : ascii :=
  let n := nat_of_ascii c in
  if (97 <=? n)%nat && (n <=? 122)%nat then ascii_of_nat (n - 32) else c.

Fixpoint mapChars (f : ascii -> ascii) (s : string) : string :=
  match s with
  | EmptyString => EmptyString
  | String c rest => String (f c) (mapChars f rest)
  end.

(** [s.toLowerCase()] and [s.toUpperCase()] on the ASCII letters. *)
Definition toLowerCase (s : string) : string := mapChars lowerChar s.
Definition toUpperCase (s : string) : string := mapChars upperChar s.

Definition isSpace (c : ascii) : bool :=
  let n := nat_of_ascii c in
  (n =? 32)%nat || ((9 <=? n)%nat && (n <=? 13)%nat).

Fixpoint trimStart (s : string) : string :=
  match s with
  | EmptyString => EmptyString
  | String c rest => if isSpace c then trimStart rest else s
  end.

Fixpoint reverse (s : string) : string :=
  match s with
  | EmptyString => EmptyString
  | String c rest => reverse rest ++ String c EmptyString
  end.

(** [s.trim()], white space being the ASCII blanks. *)
Definition trim (s : string) : string :=
  reverse (trimStart (reverse (trimStart s))).

(** [s.startsWith(p)] *)
Definition startsWith (s p : string) : bool := String.prefix p s.

(** A JavaScript [Map] with string keys: entries in insertion order;
    [set] on a key that is present replaces the value in place, on a new
    key it appends. *)
Section JSMap.
Context {V : Type}.

Definition Map : Type := list (string * V).

Fixpoint Map_get (k : string) (m : Map) : option V :=
  match m with
  | [] => None
  | (k', v) :: rest => if String.eqb k k' then Some v else Map_get k rest
  end.

Definition Map_has (k : string) (m : Map) : bool :=
  match Map_get k m with Some _ => true | None => false end.

Fixpoint Map_set (k : string) (v : V) (m : Map) : Map :=
  match m with
  | [] => [(k, v)]
  | (k', v') :: rest =>
      if String.eqb k k' then (k', v) :: rest
      else (k', v') :: Map_set k v rest
  end.

Definition Map_size (m : Map) : nat := List.length m.
End JSMap.
Arguments Map V : clear implicits.

(** Truthiness of a value, as [||] and [if] test it. *)
Definition truthyValue (v : JSValue) : bool :=
  match v with
  | JUndefined | JNull => false
  | JBool b => b
  | JNumber n => negb (n =? 0)%Z
  | JString s => negb (String.eqb s "")
  | JArray _ | JObject _ => true
  end.

End JS.

(* ================================================================== *)
(** ** core/Types.ts *)
(* ================================================================== *)

Module Types.
Import JS.

Inductive Direction : Type := ASC | DESC.

Definition directionText (d : Direction) : string :=
  match d with ASC => "ASC" | DESC => "DESC" end.

(** [FindOptions<T>]; an absent field is [None]. *)
Record FindOptions : Type := {
  where_ : option Object;
  limit : option Z;
  offset : option Z;
  order : option (list (string * Direction))
}.

(** [options = {}] *)
Definition noOptions : FindOptions :=
  {| where_ := None; limit := None; offset := None; order := None |}.

Record UpdateOptions : Type := { update_where : option Object }.
Record DestroyOptions : Type := { destroy_where : option Object }.

(** [ColumnType] *)
Inductive ColumnType : Type := INTEGER | TEXT | REAL | BLOB | NULL.

(** The string a [ColumnType] is at run time. *)
Definition columnTypeText (t : ColumnType) : string :=
  match t with
  | INTEGER => "INTEGER"
  | TEXT => "TEXT"
  | REAL => "REAL"
  | BLOB => "BLOB"
  | NULL => "NULL"
  end.

(** [ColumnMetadata]; an optional boolean that was never set is [None],
    an unset [defaultValue] is [JUndefined]. *)
Record ColumnMetadata : Type := {
  name : string;
  type : ColumnType;
  primaryKey : option bool;
  autoIncrement : option bool;
  nullable : option bool;
  unique : option bool;
  defaultValue : JSValue
}.

(** [TableMetadata] *)
Record TableMetadata : Type := {
  tableName : string;
  columns : Map ColumnMetadata
}.

(** [QueryResult] *)
Record QueryResult : Type := {
  rows : list JSValue;
  insertId : option Z;
  rowsAffected : option Z
}.

End Types.

(* ================================================================== *)
(** ** core/QueryBuilder.ts *)
(* ================================================================== *)

Module QueryBuilder.
Import JS Types.

(** The builder's private helpers receive the caller's [params] array
    and push onto it: a state monad over the array, with exceptions. *)
Definition Params := list JSValue.
Definition Build (A : Type) : Type := Params -> Result (A * Params).

Definition ret {A} (a : A) : Build A := fun ps => Ok (a, ps).

Definition bind {A B} (m : Build A) (k : A -> Build B) : Build B :=
  fun ps =>
    match m ps with
    | Ok (a, ps') => k a ps'
    | Throw e => Throw e
    end.

(** [params.push(...vs)] *)
Definition push (vs : list JSValue) : Build unit :=
  fun ps => Ok (tt, (ps ++ vs)%list).

Definition throw {A} (e : Exception) : Build A := fun _ => Throw e.

(** [conditions.push(c)] on the local array of SQL fragments. *)
Definition append1 (conditions : list string) (c : string) : list string :=
  (conditions ++ [c])%list.

Notation "x <- c1 ;; c2" := (bind c1 (fun x => c2))
  (at level 61, c1 at next level, right associativity).
Notation "c1 ;;; c2" := (bind c1 (fun _ => c2))
  (at level 61, right associativity).

(** [isOperator(value)] *)
Definition isOperator (value : JSValue) : bool :=
  match value with
  | JObject _ =>
      defined (getProp value "$gt")
      || defined (getProp value "$lt")
      || defined (getProp value "$gte")
      || defined (getProp value "$lte")
      || defined (getProp value "$like")
      || defined (getProp value "$in")
      || defined (getProp value "$ne")
  | _ => false
  end.

(** [buildOperatorCondition(key, operator, params)].  The [$in] branch
    calls [operator.$in.map]; on anything but an array that call raises
    a [TypeError] (its message is not tracked). *)
Definition buildOperatorCondition (key : string) (operator : JSValue)
  : Build string :=
  let conditions : list string := [] in
  conditions <-
    (if defined (getProp operator "$gt")
     then push [getProp operator "$gt"] ;;;
          ret (append1 conditions (key ++ " > ?"))
     else ret conditions) ;;
  conditions <-
    (if defined (getProp operator "$gte")
     then push [getProp operator "$gte"] ;;;
          ret (append1 conditions (key ++ " >= ?"))
     else ret conditions) ;;
  conditions <-
    (if defined (getProp operator "$lt")
     then push [getProp operator "$lt"] ;;;
          ret (append1 conditions (key ++ " < ?"))
     else ret conditions) ;;
  conditions <-
    (if defined (getProp operator "$lte")
     then push [getProp operator "$lte"] ;;;
          ret (append1 conditions (key ++ " <= ?"))
     else ret conditions) ;;
  conditions <-
    (if defined (getProp operator "$ne")
     then push [getProp operator "$ne"] ;;;
          ret (append1 conditions (key ++ " != ?"))
     else ret conditions) ;;
  conditions <-
    (if defined (getProp operator "$like")
     then push [getProp operator "$like"] ;;;
          ret (append1 conditions (key ++ " LIKE ?"))
     else ret conditions) ;;
  conditions <-
    (match getProp operator "$in" with
     | JUndefined => ret conditions
     | JArray xs =>
         let placeholders := join ", " (map (fun _ => "?") xs) in
         push xs ;;;
         ret (append1 conditions (key ++ " IN (" ++ placeholders ++ ")"))
     | _ => throw (TypeError "operator.$in.map is not a function")
     end) ;;
  ret (join " AND " conditions).

(** The [for ... of Object.entries(where)] loop of [buildWhereClause]. *)
Fixpoint whereEntries (entries : Object) (conditions : list string)
  : Build (list string) :=
  match entries with
  | [] => ret conditions
  | (key, value) :: rest =>
      conditions <-
        (if nullish value then
           ret (append1 conditions (key ++ " IS NULL"))
         else if isOperator value then
           operatorConditions <- buildOperatorCondition key value ;;
           ret (append1 conditions (operatorConditions))
         else
           push [value] ;;;
           ret (append1 conditions (key ++ " = ?"))) ;;
      whereEntries rest conditions
  end.

(** [buildWhereClause(where, params)] *)
Definition buildWhereClause (where_ : Object) : Build string :=
  conditions <- whereEntries where_ [] ;;
  ret (join " AND " conditions).

(** The block shared by select, update and delete:
    [if (options.where) { ...; if (whereClause) sql += ` WHERE ...` }].
    An object is always truthy; a string is truthy when non-empty. *)
Definition appendWhere (sql : string) (where_ : option Object)
  : Build string :=
  match where_ with
  | Some w =>
      whereClause <- buildWhereClause w ;;
      if String.eqb whereClause ""
      then ret sql
      else ret (sql ++ " WHERE " ++ whereClause)
  | None => ret sql
  end.

(** [buildSelect(tableName, options)] *)
Definition buildSelect (tableName : string) (options : FindOptions)
  : Result (string * Params) :=
  (sql <- appendWhere ("SELECT * FROM " ++ tableName) (where_ options) ;;
   sql <-
     (match order options with
      | Some ((_ :: _) as o) =>
          let orderParts :=
            map (fun '(field, direction) =>
                   field ++ " " ++ directionText direction) o in
          ret (sql ++ " ORDER BY " ++ join ", " orderParts)
      | _ => ret sql
      end) ;;
   sql <-
     (match limit options with
      | Some l => push [JNumber l] ;;; ret (sql ++ " LIMIT ?")
      | None => ret sql
      end) ;;
   sql <-
     (match offset options with
      | Some o => push [JNumber o] ;;; ret (sql ++ " OFFSET ?")
      | None => ret sql
      end) ;;
   ret sql) [].

(** [buildInsert(tableName, data)] *)
Definition buildInsert (tableName : string) (data : Object)
  : Result (string * Params) :=
  let columns := join ", " (keys data) in
  let placeholders := join ", " (map (fun _ => "?") (keys data)) in
  let sql :=
    "INSERT INTO " ++ tableName ++ " (" ++ columns ++ ") VALUES ("
    ++ placeholders ++ ")" in
  Ok (sql, values data).

(** [buildUpdate(tableName, data, options)] *)
Definition buildUpdate (tableName : string) (data : Object)
  (options : UpdateOptions) : Result (string * Params) :=
  if (List.length (keys data) =? 0)%nat then
    Throw (Error "No data to update")
  else
    let setParts := map (fun key => key ++ " = ?") (keys data) in
    let sql := "UPDATE " ++ tableName ++ " SET " ++ join ", " setParts in
    appendWhere sql (update_where options) (values data).

(** [buildDelete(tableName, options)] *)
Definition buildDelete (tableName : string) (options : DestroyOptions)
  : Result (string * Params) :=
  appendWhere ("DELETE FROM " ++ tableName) (destroy_where options) [].

(** The element type of [buildCreateTable]'s [columns] argument; an
    optional boolean that was never set is [None], an unset
    [defaultValue] is [JUndefined]. *)
Record ColumnDef : Type := {
  col_name : string;
  col_type : string;
  col_primaryKey : option bool;
  col_autoIncrement : option bool;
  col_nullable : option bool;
  col_unique : option bool;
  col_defaultValue : JSValue
}.

(** Truthiness of an optional boolean. *)
Definition truthy (b : option bool) : bool :=
  match b with Some true => true | _ => false end.

(** [formatValue(value)] *)
Definition formatValue (value : JSValue) : string :=
  match value with
  | JString s => "'" ++ replaceQuotes s ++ "'"
  | JNull => "NULL"
  | _ => toString value
  end.

(** The callback of [columns.map] in [buildCreateTable]. *)
Definition columnDef (col : ColumnDef) : string :=
  let def := col_name col ++ " " ++ col_type col in
  let def :=
    if truthy (col_primaryKey col) then
      let def := def ++ " PRIMARY KEY" in
      if truthy (col_autoIncrement col) then def ++ " AUTOINCREMENT" else def
    else def in
  let def :=
    match col_nullable col with
    | Some false => def ++ " NOT NULL"
    | _ => def
    end in
  let def := if truthy (col_unique col) then def ++ " UNIQUE" else def in
  let def :=
    if defined (col_defaultValue col)
    then def ++ " DEFAULT " ++ formatValue (col_defaultValue col)
    else def in
  def.

(** [buildCreateTable(tableName, columns)] *)
Definition buildCreateTable (tableName : string) (columns : list ColumnDef)
  : string :=
  let columnDefs := map columnDef columns in
  "CREATE TABLE IF NOT EXISTS " ++ tableName ++ " ("
  ++ join ", " columnDefs ++ ")".

End QueryBuilder.

(* ================================================================== *)
(** ** utils/MetadataStorage.ts *)
(* ================================================================== *)

Module MetadataStorage.
Import JS Types.

(** The static [tables] map, keyed by class name. *)
Definition Tables : Type := Map TableMetadata.

(** [registerTable(target, tableName)] with [className = target.name].
    The [else] branch assigns to the object held by the map. *)
Definition registerTable (className tableName : string) (tables : Tables)
  : Tables :=
  if negb (Map_has className tables) then
    Map_set className {| tableName := tableName; columns := [] |} tables
  else
    match Map_get className tables with
    | Some metadata =>
        Map_set className
          {| tableName := tableName; columns := columns metadata |} tables
    | None => tables
    end.

(** [registerColumn(target, propertyKey, metadata)] with
    [className = target.constructor.name]. *)
Definition registerColumn (className propertyKey : string)
  (metadata : ColumnMetadata) (tables : Tables) : Tables :=
  let tables :=
    if negb (Map_has className tables) then
      Map_set className
        {| tableName := toLowerCase className; columns := [] |} tables
    else tables in
  match Map_get className tables with
  | Some tableMetadata =>
      Map_set className
        {| tableName := tableName tableMetadata;
           columns := Map_set propertyKey metadata (columns tableMetadata) |}
        tables
  | None => tables
  end.

(** [getTableMetadata(target)]; both branches of its conditional read
    the class name. *)
Definition getTableMetadata (className : string) (tables : Tables)
  : option TableMetadata :=
  Map_get className tables.

(** [clear()] *)
Definition clear (tables : Tables) : Tables := [].

(** [getAllTables()] *)
Definition getAllTables (tables : Tables) : Tables := tables.

End MetadataStorage.

(* ================================================================== *)
(** ** decorators/column.ts and decorators/table.ts *)
(* ================================================================== *)

Module Decorators.
Import JS Types MetadataStorage.

(** [ColumnOptions] *)
Record ColumnOptions : Type := {
  opt_type : option ColumnType;
  opt_name : option string;
  opt_nullable : option bool;
  opt_unique : option bool;
  opt_defaultValue : JSValue
}.

Definition emptyOptions : ColumnOptions :=
  {| opt_type := None; opt_name := None; opt_nullable := None;
     opt_unique := None; opt_defaultValue := JUndefined |}.

(** The argument of [Column]: nothing, a column type, or options. *)
Inductive ColumnArg : Type :=
| NoArg
| TypeArg (t : ColumnType)
| OptionsArg (o : ColumnOptions).

(** [inferSQLiteType(typeName)] *)
Definition inferSQLiteType (typeName : string) : ColumnType :=
  let n := toLowerCase typeName in
  if String.eqb n "number" then INTEGER
  else if String.eqb n "string" then TEXT
  else if String.eqb n "boolean" then INTEGER
  else TEXT.

(** A property decorator, applied to the prototype of class [className]
    and the property [propName], updates the registry. *)
Definition PropertyDecorator : Type := string -> string -> Tables -> Tables.

(** [Column(typeOrOptions)].  [tsType] is the name of the constructor
    that [Reflect.getMetadata("design:type", ...)] yields, if any. *)
Definition Column (typeOrOptions : ColumnArg) (tsType : option string)
  : PropertyDecorator :=
  fun className propName tables =>
    let options :=
      match typeOrOptions with
      | TypeArg t =>
          {| opt_type := Some t; opt_name := None; opt_nullable := None;
             opt_unique := None; opt_defaultValue := JUndefined |}
      | OptionsArg o => o
      | NoArg => emptyOptions
      end in
    let options :=
      match opt_type options, tsType with
      | None, Some typeName =>
          {| opt_type := Some (inferSQLiteType typeName);
             opt_name := opt_name options;
             opt_nullable := opt_nullable options;
             opt_unique := opt_unique options;
             opt_defaultValue := opt_defaultValue options |}
      | _, _ => options
      end in
    let metadata :=
      {| name := match opt_name options with
                 | Some n => if String.eqb n "" then propName else n
                 | None => propName
                 end;
         type := match opt_type options with
                 | Some t => t
                 | None => TEXT
                 end;
         primaryKey := None;
         autoIncrement := None;
         nullable := opt_nullable options;
         unique := opt_unique options;
         defaultValue := opt_defaultValue options |} in
    registerColumn className propName metadata tables.

(** [PrimaryKey(autoIncrement = true)] *)
Definition PrimaryKey (autoIncrement : bool) : PropertyDecorator :=
  fun className propName tables =>
    let metadata :=
      {| name := propName; type := INTEGER; primaryKey := Some true;
         autoIncrement := Some autoIncrement; nullable := Some false;
         unique := None; defaultValue := JUndefined |} in
    registerColumn className propName metadata tables.

(** [AutoIncrement()] *)
Definition AutoIncrement : PropertyDecorator := PrimaryKey true.

(** [existing?.columns.get(propName)] *)
Definition existingColumn (className propName : string) (tables : Tables)
  : option ColumnMetadata :=
  match getTableMetadata className tables with
  | Some existing => Map_get propName (columns existing)
  | None => None
  end.

(** [existingColumn || { name: propName, type: "TEXT" }] *)
Definition orTextColumn (c : option ColumnMetadata) (propName : string)
  : ColumnMetadata :=
  match c with
  | Some c => c
  | None =>
      {| name := propName; type := TEXT; primaryKey := None;
         autoIncrement := None; nullable := None; unique := None;
         defaultValue := JUndefined |}
  end.

(** [NotNull()] *)
Definition NotNull : PropertyDecorator :=
  fun className propName tables =>
    let base := orTextColumn (existingColumn className propName tables)
                  propName in
    let metadata :=
      {| name := name base; type := type base;
         primaryKey := primaryKey base;
         autoIncrement := autoIncrement base;
         nullable := Some false;
         unique := unique base; defaultValue := defaultValue base |} in
    registerColumn className propName metadata tables.

(** [Unique()] *)
Definition Unique : PropertyDecorator :=
  fun className propName tables =>
    let base := orTextColumn (existingColumn className propName tables)
                  propName in
    let metadata :=
      {| name := name base; type := type base;
         primaryKey := primaryKey base;
         autoIncrement := autoIncrement base;
         nullable := nullable base;
         unique := Some true; defaultValue := defaultValue base |} in
    registerColumn className propName metadata tables.

(** [Default(value)] *)
Definition Default (value : JSValue) : PropertyDecorator :=
  fun className propName tables =>
    let base := orTextColumn (existingColumn className propName tables)
                  propName in
    let metadata :=
      {| name := name base; type := type base;
         primaryKey := primaryKey base;
         autoIncrement := autoIncrement base;
         nullable := nullable base;
         unique := unique base; defaultValue := value |} in
    registerColumn className propName metadata tables.

(** [Table(tableName)], as far as the registry is concerned. *)
Definition Table (tableName : string) (className : string)
  (tables : Tables) : Tables :=
  registerTable className tableName tables.

End Decorators.

(* ================================================================== *)
(** ** core/Database.ts *)
(* ================================================================== *)

Module Database.
Import JS Types.

(** A statement handed to the SQLite handle. *)
Definition Statement : Type := (string * list JSValue)%type.

(** The SQLite handle of expo-sqlite, an external collaborator: what
    [getAllAsync] and [runAsync] answer (or raise) may depend on every
    statement the handle has received so far.  [runAsync] answers with
    [(lastInsertRowId, changes)]. *)
Record Engine : Type := {
  getAllAsync :
    list Statement -> string -> list JSValue -> Result (list JSValue);
  runAsync :
    list Statement -> string -> list JSValue -> Result (Z * Z)
}.

(** The singleton: whether [this.db] is set, and the statements the
    handle has received, oldest first. *)
Record State : Type := {
  connected : bool;
  issued : list Statement
}.

(** Computations over the singleton; the state survives an exception. *)
Definition Db (A : Type) : Type := State -> Result A * State.

Definition ret {A} (a : A) : Db A := fun st => (Ok a, st).

Definition throw {A} (e : Exception) : Db A := fun st => (Throw e, st).

Definition bind {A B} (m : Db A) (k : A -> Db B) : Db B :=
  fun st =>
    match m st with
    | (Ok a, st') => k a st'
    | (Throw e, st') => (Throw e, st')
    end.

Definition notInitialized : string :=
  "Database not initialized. Call Database.getInstance().initialize() first.".

(** [execute(sql, params = [])]; the [catch] block logs and rethrows. *)
Definition execute (engine : Engine) (sql : string) (params : list JSValue)
  : Db QueryResult :=
  fun st =>
    if negb (connected st) then (Throw (Error notInitialized), st)
    else
      let st' := {| connected := connected st;
                    issued := (issued st ++ [(sql, params)])%list |} in
      if startsWith (toUpperCase (trim sql)) "SELECT" then
        match getAllAsync engine (issued st) sql params with
        | Ok result =>
            (Ok {| rows := result; insertId := None;
                   rowsAffected := None |}, st')
        | Throw error => (Throw error, st')
        end
      else
        match runAsync engine (issued st) sql params with
        | Ok (lastInsertRowId, changes) =>
            (Ok {| rows := []; insertId := Some lastInsertRowId;
                   rowsAffected := Some changes |}, st')
        | Throw error => (Throw error, st')
        end.

(** The stand-in handle of the repository's quick test script
    ([mockSQLite]): a query answers no row, any other statement reports
    [lastInsertRowId = 1] and [changes = 1]. *)
Definition mockSQLite : Engine :=
  {| getAllAsync := fun _ _ _ => Ok [];
     runAsync := fun _ _ _ => Ok (1%Z, 1%Z) |}.

(** [executeRaw(sql, params = [])] *)
Definition executeRaw (engine : Engine) (sql : string)
  (params : list JSValue) : Db QueryResult :=
  execute engine sql params.

(** [initialize(dbName)].  [openDatabaseAsync] is expo-sqlite's and may
    raise; [this.dbName] is only read back by [console.log]. *)
Definition initialize (openDatabaseAsync : string -> Result unit)
  (dbName : string) : Db unit :=
  fun st =>
    if connected st then (Ok tt, st)
    else
      match openDatabaseAsync dbName with
      | Ok _ => (Ok tt, {| connected := true; issued := issued st |})
      | Throw e => (Throw e, st)
      end.

(** [close()]; [closeAsync] is what the handle's [closeAsync] answers. *)
Definition close (closeAsync : Result unit) : Db unit :=
  fun st =>
    if connected st then
      match closeAsync with
      | Ok _ => (Ok tt, {| connected := false; issued := issued st |})
      | Throw e => (Throw e, st)
      end
    else (Ok tt, st).

(** [db.execAsync(sql)] on the handle [transaction] obtained from
    [getDb()]: the handle receives the statement, then answers. *)
Definition execAsync (exec : list Statement -> string -> Result unit)
  (sql : string) : Db unit :=
  fun st =>
    (exec (issued st) sql,
     {| connected := connected st;
        issued := (issued st ++ [(sql, [])])%list |}).

(** The [try] block of [transaction]. *)
Definition transactionBody (exec : list Statement -> string -> Result unit)
  (callback : Db unit) : Db unit :=
  bind (execAsync exec "BEGIN TRANSACTION")
    (fun _ => bind callback (fun _ => execAsync exec "COMMIT")).

(** [transaction(callback)]: [getDb()] is outside the [try]; the [catch]
    block rolls back and rethrows. *)
Definition transaction (exec : list Statement -> string -> Result unit)
  (callback : Db unit) : Db unit :=
  fun st =>
    if negb (connected st) then (Throw (Error notInitialized), st)
    else
      match transactionBody exec callback st with
      | (Ok _, st') => (Ok tt, st')
      | (Throw error, st') =>
          match execAsync exec "ROLLBACK" st' with
          | (Ok _, st'') => (Throw error, st'')
          | (Throw rollbackError, st'') => (Throw rollbackError, st'')
          end
      end.

Definition newline : string := String (ascii_of_nat 10) "".

(** The template literal [dropAllTables] hands to [execute]. *)
Definition catalogQuery : string :=
  newline ++ "      SELECT name FROM sqlite_master " ++ newline
  ++ "      WHERE type='table' AND name NOT LIKE 'sqlite_%'" ++ newline
  ++ "    ".

(** The [for (const row of result.rows)] loop of [dropAllTables]; reading
    [row.name] off [null] or [undefined] raises. *)
Fixpoint dropRows (engine : Engine) (rows : list JSValue) : Db unit :=
  match rows with
  | [] => ret tt
  | row :: rest =>
      if nullish row then
        throw (TypeError "Cannot read properties of null or undefined")
      else
        bind (execute engine
                ("DROP TABLE IF EXISTS " ++ toString (getProp row "name")) [])
          (fun _ => dropRows engine rest)
  end.

(** [dropAllTables()] *)
Definition dropAllTables (engine : Engine) : Db unit :=
  bind (execute engine catalogQuery [])
    (fun result => dropRows engine (rows result)).

End Database.

(* ================================================================== *)
(** ** core/Model.ts *)
(* ================================================================== *)

Module Model.
Import JS Types MetadataStorage Database.

Notation "x <- c1 ;; c2" := (Database.bind c1 (fun x => c2))
  (at level 61, c1 at next level, right associativity).
Notation "c1 ;;; c2" := (Database.bind c1 (fun _ => c2))
  (at level 61, right associativity).

(** A model class: its [name] and its static [tableName], if set. *)
Record ModelClass : Type := {
  className : string;
  staticTableName : option string
}.

(** Lift a builder result into a database computation. *)
Definition built {A} (r : Result A) : Db A :=
  match r with
  | Ok a => Database.ret a
  | Throw e => Database.throw e
  end.

Section WithEnvironment.
(** The SQLite handle and the metadata registry the model reads. *)
Variable engine : Engine.
Variable tables : Tables.

(** [getTableName()] *)
Definition getTableName (this : ModelClass) : string :=
  match getTableMetadata (className this) tables with
  | Some metadata => tableName metadata
  | None =>
      match staticTableName this with
      | Some t =>
          if String.eqb t "" then toLowerCase (className this) else t
      | None => toLowerCase (className this)
      end
  end.

(** [findAll(options?)] *)
Definition findAll (this : ModelClass) (options : option FindOptions)
  : Db (list JSValue) :=
  let tableName := getTableName this in
  built_ <-
    built (QueryBuilder.buildSelect tableName
             (match options with Some o => o | None => noOptions end)) ;;
  let '(sql, params) := built_ in
  result <- execute engine sql params ;;
  Database.ret (rows result).

(** [{ ...options, limit: 1 }] *)
Definition withLimitOne (options : option FindOptions) : FindOptions :=
  match options with
  | Some o =>
      {| where_ := where_ o; limit := Some 1%Z; offset := offset o;
         order := order o |}
  | None =>
      {| where_ := None; limit := Some 1%Z; offset := None;
         order := None |}
  end.

(** [findOne(options?)] *)
Definition findOne (this : ModelClass) (options : option FindOptions)
  : Db JSValue :=
  let limitedOptions := withLimitOne options in
  results <- findAll this (Some limitedOptions) ;;
  Database.ret (match results with
                | first :: _ => first
                | [] => JNull
                end).

(** [update(data, options)] *)
Definition update (this : ModelClass) (data : Object)
  (options : UpdateOptions) : Db Z :=
  let tableName := getTableName this in
  built_ <-
    built (QueryBuilder.buildUpdate tableName data options) ;;
  let '(sql, params) := built_ in
  result <- execute engine sql params ;;
  Database.ret (match rowsAffected result with
                | Some n => n
                | None => 0%Z
                end).

(** The callback of [Array.from(metadata.columns.entries()).map] in
    [sync]. *)
Definition toColumnDef (entry : string * ColumnMetadata)
  : QueryBuilder.ColumnDef :=
  let '(name, col) := entry in
  {| QueryBuilder.col_name :=
       if String.eqb (Types.name col) "" then name else Types.name col;
     QueryBuilder.col_type := columnTypeText (type col);
     QueryBuilder.col_primaryKey := primaryKey col;
     QueryBuilder.col_autoIncrement := autoIncrement col;
     QueryBuilder.col_nullable := nullable col;
     QueryBuilder.col_unique := unique col;
     QueryBuilder.col_defaultValue := defaultValue col |}.

Definition noColumns (this : ModelClass) : string :=
  "No columns defined for model " ++ className this
  ++ ". Use @Column decorators.".

(** [sync(options = {})], [force] being [options.force]. *)
Definition sync (this : ModelClass) (force : option bool) : Db unit :=
  let tableName := getTableName this in
  match getTableMetadata (className this) tables with
  | None => Database.throw (Error (noColumns this))
  | Some metadata =>
      if (Map_size (columns metadata) =? 0)%nat then
        Database.throw (Error (noColumns this))
      else
        (if QueryBuilder.truthy force
         then (execute engine ("DROP TABLE IF EXISTS " ++ tableName) [] ;;;
               Database.ret tt)
         else Database.ret tt) ;;;
        let columns := map toColumnDef (columns metadata) in
        let createTableSql :=
          QueryBuilder.buildCreateTable tableName columns in
        execute engine createTableSql [] ;;;
        Database.ret tt
  end.

(** [findByPk(id)], [id] being a number or a string. *)
Definition findByPk (this : ModelClass) (id : JSValue) : Db JSValue :=
  findOne this
    (Some {| where_ := Some [("id", id)]; limit := None; offset := None;
             order := None |}).

(** [result.insertId] as a value. *)
Definition insertIdValue (result : QueryResult) : JSValue :=
  match insertId result with
  | Some n => JNumber n
  | None => JUndefined
  end.

(** [create(data)]; [{ ...data, id: result.insertId }] keeps an [id] key
    of [data] where it is and appends it otherwise. *)
Definition create (this : ModelClass) (data : Object) : Db Object :=
  let tableName := getTableName this in
  built_ <- built (QueryBuilder.buildInsert tableName data) ;;
  let '(sql, params) := built_ in
  result <- execute engine sql params ;;
  Database.ret (Map_set "id" (insertIdValue result) data).

(** [destroy(options)] *)
Definition destroy (this : ModelClass) (options : DestroyOptions) : Db Z :=
  let tableName := getTableName this in
  built_ <- built (QueryBuilder.buildDelete tableName options) ;;
  let '(sql, params) := built_ in
  result <- execute engine sql params ;;
  Database.ret (match rowsAffected result with
                | Some n => n
                | None => 0%Z
                end).

(** [result.rows[0]?.count] *)
Definition firstCount (rows : list JSValue) : JSValue :=
  match rows with
  | [] => JUndefined
  | row :: _ => if nullish row then JUndefined else getProp row "count"
  end.

(** [count(options?)] *)
Definition count (this : ModelClass) (options : option FindOptions)
  : Db JSValue :=
  let tableName := getTableName this in
  let sql := "SELECT COUNT(*) as count FROM " ++ tableName in
  built_ <-
    built (QueryBuilder.appendWhere sql
             (match options with Some o => where_ o | None => None end) []) ;;
  let '(sql, params) := built_ in
  result <- execute engine sql params ;;
  Database.ret (if truthyValue (firstCount (rows result))
                then firstCount (rows result)
                else JNumber 0).

(** [drop()] *)
Definition drop (this : ModelClass) : Db unit :=
  let tableName := getTableName this in
  execute engine ("DROP TABLE IF EXISTS " ++ tableName) [] ;;;
  Database.ret tt.

(** [truncate()] *)
Definition truncate (this : ModelClass) : Db unit :=
  let tableName := getTableName this in
  execute engine ("DELETE FROM " ++ tableName) [] ;;;
  Database.ret tt.

End WithEnvironment.

(** The [User] model of the quick test script, its decorators applied
    in evaluation order: property decorators first, [@Table] last. *)
Definition User : ModelClass :=
  {| className := "User"; staticTableName := Some "users" |}.

Definition userTables : Tables :=
  Decorators.Table "users" "User"
    (Decorators.Column (Decorators.TypeArg TEXT) None "User" "createdAt"
       (Decorators.Column (Decorators.TypeArg INTEGER) None "User" "age"
          (Decorators.Column (Decorators.TypeArg TEXT) None "User" "name"
             (Decorators.Column (Decorators.TypeArg TEXT) None "User"
                "email"
                (Decorators.PrimaryKey true "User" "id" []))))).

End Model.

(* ================================================================== *)
(** ** The specification's reading of the statement builder

    Closed forms written after the specification's sentences; the
    theorems below compare them with the builder above. *)
(* ================================================================== *)

Module Spec.
Import JS Types QueryBuilder.

(** Number of ['?'] placeholder characters in a SQL text. *)
Fixpoint placeholders (s : string) : nat :=
  match s with
  | EmptyString => 0
  | String c rest =>
      (if Ascii.eqb c "?"%char then 1 else 0) + placeholders rest
  end.

(** A SQL fragment together with the parameters it binds. *)
Definition Fragment : Type := (string * Params)%type.

Definition sqlOf (sep : string) (frs : list Fragment) : string :=
  join sep (map fst frs).

Definition paramsOf (frs : list Fragment) : Params :=
  concat (map snd frs).

(** "One SQL fragment per present operator key, each contributing its
    own parameter": a comparison operator stored under [prop]. *)
Definition comparison (key : string) (v : JSValue) (prop sqlop : string)
  : list Fragment :=
  if defined (getProp v prop)
  then [(key ++ sqlop, [getProp v prop])]
  else [].

(** "[in] expands to [<col> IN (?, ?, ...)] with one parameter per
    sequence element". *)
Definition inList (key : string) (v : JSValue) : list Fragment :=
  match getProp v "$in" with
  | JArray xs =>
      [(key ++ " IN (" ++ join ", " (repeat "?" (List.length xs)) ++ ")",
        xs)]
  | _ => []
  end.

(** "In the fixed key-check order gt, gte, lt, lte, ne, like, in". *)
Definition operatorFragments (key : string) (v : JSValue)
  : list Fragment :=
  (comparison key v "$gt" " > ?"
   ++ comparison key v "$gte" " >= ?"
   ++ comparison key v "$lt" " < ?"
   ++ comparison key v "$lte" " <= ?"
   ++ comparison key v "$ne" " != ?"
   ++ comparison key v "$like" " LIKE ?"
   ++ inList key v)%list.

(** The [Operator] type gives [$in] an array when it is there. *)
Definition inIsArray (v : JSValue) : bool :=
  match getProp v "$in" with
  | JUndefined | JArray _ => true
  | _ => false
  end.

(** A where-object whose operator sets are all of the [Operator] type. *)
Definition entryTyped (entry : string * JSValue) : bool :=
  nullish (snd entry) || negb (isOperator (snd entry))
  || inIsArray (snd entry).

Definition wellTyped (w : Object) : bool := forallb entryTyped w.

Definition wellTypedOpt (w : option Object) : bool :=
  match w with Some w => wellTyped w | None => true end.

(** The WHERE algorithm, entry by entry: null, operator set, equality. *)
Definition condition (entry : string * JSValue) : Fragment :=
  let '(key, value) := entry in
  if nullish value then (key ++ " IS NULL", [])
  else if isOperator value then
    (sqlOf " AND " (operatorFragments key value),
     paramsOf (operatorFragments key value))
  else (key ++ " = ?", [value]).

(** "All top-level entries join with AND"; no entry, no clause. *)
Definition whereText (w : option Object) : string :=
  match w with
  | Some ((_ :: _) as w) => " WHERE " ++ sqlOf " AND " (map condition w)
  | _ => ""
  end.

Definition whereParams (w : option Object) : Params :=
  match w with
  | Some w => paramsOf (map condition w)
  | None => []
  end.

(** "[<column> <direction>] pairs in descriptor order comma-joined". *)
Definition orderText (o : option (list (string * Direction))) : string :=
  match o with
  | Some ((_ :: _) as o) =>
      " ORDER BY "
      ++ join ", " (map (fun p => fst p ++ " " ++ directionText (snd p)) o)
  | _ => ""
  end.

Definition limitText (l : option Z) : string :=
  match l with Some _ => " LIMIT ?" | None => "" end.

Definition offsetText (o : option Z) : string :=
  match o with Some _ => " OFFSET ?" | None => "" end.

Definition numberParam (n : option Z) : Params :=
  match n with Some n => [JNumber n] | None => [] end.

(** "[UPDATE <table> SET col1 = ?, col2 = ? ...]" *)
Definition setText (data : Object) : string :=
  join ", " (map (fun key => key ++ " = ?") (keys data)).

(** The column-definition suffixes of [CREATE TABLE], in their fixed
    order. *)
Definition primaryKeyText (col : ColumnDef) : string :=
  match col_primaryKey col with
  | Some true =>
      " PRIMARY KEY"
      ++ match col_autoIncrement col with
         | Some true => " AUTOINCREMENT"
         | _ => ""
         end
  | _ => ""
  end.

Definition notNullText (col : ColumnDef) : string :=
  match col_nullable col with Some false => " NOT NULL" | _ => "" end.

Definition uniqueText (col : ColumnDef) : string :=
  match col_unique col with Some true => " UNIQUE" | _ => "" end.

(** "Single-quote-escaped by doubling embedded quotes". *)
Fixpoint doubled (s : string) : string :=
  match s with
  | EmptyString => ""
  | String c rest =>
      (if Ascii.eqb c "'"%char then "''" else String c "") ++ doubled rest
  end.

Definition literal (v : JSValue) : string :=
  match v with
  | JString s => "'" ++ doubled s ++ "'"
  | JNull => "NULL"
  | JNumber n => numberToString n
  | JBool true => "true"
  | JBool false => "false"
  | other => toString other
  end.

Definition defaultText (col : ColumnDef) : string :=
  match col_defaultValue col with
  | JUndefined => ""
  | v => " DEFAULT " ++ literal v
  end.

Definition columnText (col : ColumnDef) : string :=
  col_name col ++ " " ++ col_type col ++ primaryKeyText col
  ++ notNullText col ++ uniqueText col ++ defaultText col.

(** A builder result that is a pair with as many ['?'] as parameters. *)
Definition balanced (r : Result (string * Params)) : Prop :=
  exists sql params,
    r = Ok (sql, params) /\ placeholders sql = List.length params.

(** "[findAll] with the descriptor's limit replaced by 1". *)
Definition limitOne (options : option FindOptions) : FindOptions :=
  let o := match options with Some o => o | None => noOptions end in
  {| where_ := where_ o; limit := Some 1%Z; offset := offset o;
     order := order o |}.

(** "The first element of the result sequence, or absent when empty". *)
Definition firstOrNull (rows : list JSValue) : JSValue := hd JNull rows.

(** "The resolved schema is absent or has zero registered columns". *)
Definition noSchema (m : option TableMetadata) : bool :=
  match m with
  | None => true
  | Some m => match columns m with [] => true | _ :: _ => false end
  end.

(** The handle carries out a parameterless statement after [history]. *)
Definition runs (engine : Database.Engine)
  (history : list Database.Statement) (sql : string) : Prop :=
  exists r, Database.runAsync engine history sql [] = Ok r.

(** "The fields the later declaration does not explicitly set keep
    their values from the earlier declaration". *)
Definition keepsEarlierFields (earlier later stored : ColumnMetadata)
  : Prop :=
  (primaryKey later = None -> primaryKey stored = primaryKey earlier)
  /\ (autoIncrement later = None ->
      autoIncrement stored = autoIncrement earlier)
  /\ (nullable later = None -> nullable stored = nullable earlier)
  /\ (unique later = None -> unique stored = unique earlier)
  /\ (defaultValue later = JUndefined ->
      defaultValue stored = defaultValue earlier).

(** "Column registration is a merge, not a replace", read on the
    registry's [registerColumn]. *)
Definition registrationMerges : Prop :=
  forall (className propertyKey : string)
         (earlier later : ColumnMetadata)
         (tables : MetadataStorage.Tables),
  exists stored,
    Decorators.existingColumn className propertyKey
      (MetadataStorage.registerColumn className propertyKey later
         (MetadataStorage.registerColumn className propertyKey earlier
            tables))
    = Some stored
    /\ keepsEarlierFields earlier later stored.

(** Names (table, columns) that contain no ['?'] character. *)
Definition clean (s : string) : bool := (placeholders s =? 0)%nat.

Definition cleanKeys (o : option Object) : bool :=
  match o with Some o => forallb clean (keys o) | None => true end.

Definition cleanOrder (o : option (list (string * Direction))) : bool :=
  match o with Some o => forallb clean (map fst o) | None => true end.

(** A where-value that is bound as it is: neither null nor an operator
    set. *)
Definition plain (v : JSValue) : bool :=
  negb (nullish v) && negb (isOperator v).

(** The seven keys the builder probes for. *)
Definition operatorKeys : list string :=
  ["$gt"; "$gte"; "$lt"; "$lte"; "$ne"; "$like"; "$in"].

(** An operator set whose [$in] is there and is not an array. *)
Definition badIn (v : JSValue) : bool :=
  negb (nullish v) && isOperator v && negb (inIsArray v).

(** Number of single quotes in a string. *)
Fixpoint quotes (s : string) : nat :=
  match s with
  | EmptyString => 0
  | String c rest => (if Ascii.eqb c "'"%char then 1 else 0) + quotes rest
  end.

Fixpoint noSpace (s : string) : bool :=
  match s with
  | EmptyString => true
  | String c rest => negb (isSpace c) && noSpace rest
  end.

Fixpoint allSpace (s : string) : bool :=
  match s with
  | EmptyString => true
  | String c rest => isSpace c && allSpace rest
  end.

(** The connected gateway after its handle received one more
    statement. *)
Definition sent (st : Database.State) (sql : string)
  (params : list JSValue) : Database.State :=
  {| Database.connected := true;
     Database.issued := (Database.issued st ++ [(sql, params)])%list |}.


End Spec.

(* ================================================================== *)
(** ** Strings and lists *)
(* ================================================================== *)

Section StringFacts.
Import JS Spec.

Lemma append_assoc (a b c : string) : (a ++ b) ++ c = a ++ (b ++ c).
Proof. induction a as [|ch a IH]; simpl; [reflexivity | now rewrite IH]. Qed.

Lemma append_nil_r (a : string) : a ++ "" = a.
Proof. induction a as [|ch a IH]; simpl; [reflexivity | now rewrite IH]. Qed.

Lemma append_eq_nil (a b : string) : a ++ b = "" -> a = "" /\ b = "".
Proof. destruct a; simpl; [auto | discriminate]. Qed.

Lemma append_nonempty_r (a b : string) : b <> "" -> a ++ b <> "".
Proof. intros Hb H. apply append_eq_nil in H. now destruct H. Qed.

Lemma eqb_append_nonempty (a b : string) :
  b <> "" -> String.eqb (a ++ b) "" = false.
Proof. intro Hb. apply String.eqb_neq. now apply append_nonempty_r. Qed.

Lemma placeholders_app (a b : string) :
  placeholders (a ++ b) = placeholders a + placeholders b.
Proof. induction a as [|ch a IH]; simpl; [reflexivity | rewrite IH; lia]. Qed.

Lemma join_cons (sep x : string) (l : list string) :
  l <> [] -> join sep (x :: l) = x ++ sep ++ join sep l.
Proof. destruct l; [congruence | reflexivity]. Qed.

Lemma join_snoc (sep x : string) (l : list string) :
  l <> [] -> join sep (l ++ [x]) = join sep l ++ sep ++ x.
Proof.
  induction l as [|y l IH]; [congruence|]. intros _.
  destruct l as [|z l]; [reflexivity|].
  change ((y :: z :: l) ++ [x])%list with (y :: ((z :: l) ++ [x]))%list.
  rewrite join_cons by (destruct l; discriminate).
  rewrite IH by discriminate.
  rewrite (join_cons sep y (z :: l)) by discriminate.
  now rewrite !append_assoc.
Qed.

(** The join of non-empty strings is empty only for the empty list. *)
Lemma join_nonempty (sep : string) (l : list string) :
  l <> [] -> Forall (fun s => s <> "") l -> join sep l <> "".
Proof.
  destruct l as [|x l]; [congruence|]. intros _ Hall.
  inversion Hall as [|? ? Hx Hl]; subst.
  destruct l as [|y l]; [exact Hx|].
  rewrite join_cons by discriminate.
  intro H. apply append_eq_nil in H. now destruct H.
Qed.

(** Placeholders of a join whose separator has none. *)
Lemma placeholders_join (sep : string) (l : list string) :
  placeholders sep = 0 ->
  placeholders (join sep l) = list_sum (map placeholders l).
Proof.
  intro Hsep. induction l as [|x l IH]; [reflexivity|].
  destruct l as [|y l]; [simpl; lia|].
  rewrite join_cons by discriminate.
  rewrite !placeholders_app, IH, Hsep. simpl. lia.
Qed.

Lemma placeholders_repeat (n : nat) :
  placeholders (join ", " (repeat "?" n)) = n.
Proof.
  rewrite placeholders_join by reflexivity.
  induction n as [|n IH]; [reflexivity|]. simpl in *. now rewrite IH.
Qed.

Lemma map_placeholder {A} (xs : list A) :
  map (fun _ => "?") xs = repeat "?" (List.length xs).
Proof. apply map_const. Qed.

(** Fragments that are balanced one by one are balanced when joined. *)
Lemma placeholders_fragments (sep : string) (frs : list Fragment) :
  placeholders sep = 0 ->
  Forall (fun fr => placeholders (fst fr) = List.length (snd fr)) frs ->
  placeholders (sqlOf sep frs) = List.length (paramsOf frs).
Proof.
  intros Hsep Hall. unfold sqlOf, paramsOf.
  rewrite placeholders_join by exact Hsep.
  rewrite length_concat, !map_map.
  induction Hall as [|fr frs Hfr _ IH]; [reflexivity|].
  cbn [map list_sum fold_right]. unfold list_sum in IH |- *.
  cbn [fold_right]. rewrite IH. f_equal. exact Hfr.
Qed.

End StringFacts.

(* ================================================================== *)
(** ** The WHERE clause *)
(* ================================================================== *)

Section WhereClause.
Import JS Types QueryBuilder Spec.

(** The operator expansion computes the specification's fragments. *)
Lemma buildOperatorCondition_fragments (key : string) (v : JSValue)
  (ps : Params) :
  inIsArray v = true ->
  buildOperatorCondition key v ps
  = Ok (sqlOf " AND " (operatorFragments key v),
        (ps ++ paramsOf (operatorFragments key v))%list).
Proof.
  unfold inIsArray, buildOperatorCondition, operatorFragments, comparison,
    inList, sqlOf, paramsOf, bind, push, ret, throw, append1.
  intro Hin.
  destruct (defined (getProp v "$gt"));
    destruct (defined (getProp v "$gte"));
    destruct (defined (getProp v "$lt"));
    destruct (defined (getProp v "$lte"));
    destruct (defined (getProp v "$ne"));
    destruct (defined (getProp v "$like"));
    destruct (getProp v "$in") as [| | | | |xs|]; try discriminate Hin;
    cbn [app map fst snd concat];
    rewrite <- ?app_assoc, ?map_placeholder, ?app_nil_r;
    reflexivity.
Qed.

Lemma comparison_texts (key : string) (v : JSValue) (prop sqlop : string) :
  sqlop <> "" ->
  Forall (fun fr : Fragment => fst fr <> "") (comparison key v prop sqlop).
Proof.
  intro Hop. unfold comparison.
  destruct (defined (getProp v prop)); constructor; [|constructor].
  now apply append_nonempty_r.
Qed.

Lemma operatorFragments_texts (key : string) (v : JSValue) :
  Forall (fun fr : Fragment => fst fr <> "") (operatorFragments key v).
Proof.
  unfold operatorFragments.
  repeat (apply Forall_app; split;
          [apply comparison_texts; discriminate|]).
  unfold inList. destruct (getProp v "$in"); constructor; [|constructor].
  now apply append_nonempty_r.
Qed.

(** A value classified as an operator set yields at least one fragment. *)
Lemma operatorFragments_nonempty (key : string) (v : JSValue) :
  isOperator v = true -> inIsArray v = true ->
  operatorFragments key v <> [].
Proof.
  unfold isOperator, inIsArray, operatorFragments, comparison, inList.
  destruct v as [| | | | | |props]; try discriminate.
  intros Hop Hin.
  destruct (defined (getProp (JObject props) "$gt")); [discriminate|].
  destruct (defined (getProp (JObject props) "$gte")); [discriminate|].
  destruct (defined (getProp (JObject props) "$lt")); [discriminate|].
  destruct (defined (getProp (JObject props) "$lte")); [discriminate|].
  destruct (defined (getProp (JObject props) "$ne")); [discriminate|].
  destruct (defined (getProp (JObject props) "$like")); [discriminate|].
  destruct (getProp (JObject props) "$in"); discriminate.
Qed.

Lemma condition_text (entry : string * JSValue) :
  entryTyped entry = true -> fst (condition entry) <> "".
Proof.
  destruct entry as [key value]. unfold entryTyped, condition.
  cbn [snd]. destruct (nullish value); cbn [orb fst].
  - intros _. now apply append_nonempty_r.
  - destruct (isOperator value) eqn:Hop; cbn [negb orb fst].
    + intro Hin. apply join_nonempty.
      * intro H. apply map_eq_nil in H.
        now apply (operatorFragments_nonempty key value).
      * apply Forall_map. apply operatorFragments_texts.
    + intros _. now apply append_nonempty_r.
Qed.

(** The loop of [buildWhereClause] appends one condition per entry. *)
Lemma whereEntries_conditions (w : Object) :
  wellTyped w = true ->
  forall (conditions : list string) (ps : Params),
    whereEntries w conditions ps
    = Ok ((conditions ++ map fst (map condition w))%list,
          (ps ++ paramsOf (map condition w))%list).
Proof.
  induction w as [|[key value] w IH]; intros Hw conditions ps.
  - unfold paramsOf. simpl. unfold ret. now rewrite !app_nil_r.
  - cbn [wellTyped forallb] in Hw.
    apply andb_true_iff in Hw. destruct Hw as [Hentry Hw].
    unfold entryTyped in Hentry. cbn [snd] in Hentry.
    cbn [whereEntries]. unfold bind at 1.
    assert (Hstep :
      (if nullish value
       then ret (append1 conditions (key ++ " IS NULL"))
       else if isOperator value
            then operatorConditions <- buildOperatorCondition key value ;;
                 ret (append1 conditions operatorConditions)
            else push [value] ;;; ret (append1 conditions (key ++ " = ?")))
        ps
      = Ok ((conditions ++ [fst (condition (key, value))])%list,
            (ps ++ snd (condition (key, value)))%list)).
    { unfold condition. destruct (nullish value) eqn:Hnull.
      - unfold ret, append1. cbn [fst snd]. now rewrite app_nil_r.
      - cbn [orb] in Hentry.
        destruct (isOperator value) eqn:Hop.
        + cbn [negb orb] in Hentry. unfold bind.
          rewrite buildOperatorCondition_fragments by exact Hentry.
          reflexivity.
        + reflexivity. }
    rewrite Hstep. rewrite IH by exact Hw.
    unfold paramsOf. cbn [map concat].
    now rewrite <- !app_assoc.
Qed.

Lemma buildWhereClause_conditions (w : Object) (ps : Params) :
  wellTyped w = true ->
  buildWhereClause w ps
  = Ok (sqlOf " AND " (map condition w),
        (ps ++ paramsOf (map condition w))%list).
Proof.
  intro Hw. unfold buildWhereClause, bind.
  now rewrite whereEntries_conditions.
Qed.

Lemma wellTyped_conditions (w : Object) :
  wellTyped w = true ->
  Forall (fun s => s <> "") (map fst (map condition w)).
Proof.
  induction w as [|entry w IH]; [constructor|].
  cbn [wellTyped forallb map]. intro Hw.
  apply andb_true_iff in Hw. destruct Hw as [He Hw].
  constructor; [now apply condition_text | now apply IH].
Qed.

(** The WHERE block shared by select, update and delete. *)
Lemma appendWhere_text (sql : string) (w : option Object) (ps : Params) :
  wellTypedOpt w = true ->
  appendWhere sql w ps = Ok (sql ++ whereText w, (ps ++ whereParams w)%list).
Proof.
  destruct w as [w|]; simpl; intro Hw.
  - unfold bind. rewrite buildWhereClause_conditions by exact Hw.
    destruct w as [|entry w].
    + simpl. unfold ret, paramsOf. simpl. now rewrite append_nil_r.
    + rewrite (proj2 (String.eqb_neq _ _)); [reflexivity|].
      apply join_nonempty; [discriminate|].
      now apply wellTyped_conditions.
  - unfold ret. now rewrite append_nil_r, app_nil_r.
Qed.

End WhereClause.

(* ================================================================== *)
(** ** Closed forms of the builders *)
(* ================================================================== *)

Section BuilderForms.
Import JS Types QueryBuilder Spec.

Lemma orderParts_pairs (o : list (string * Direction)) :
  map (fun '(field, direction) => field ++ " " ++ directionText direction) o
  = map (fun p => fst p ++ " " ++ directionText (snd p)) o.
Proof. apply map_ext. now intros [field direction]. Qed.

Lemma buildSelect_text (tableName : string) (options : FindOptions) :
  wellTypedOpt (where_ options) = true ->
  buildSelect tableName options
  = Ok ("SELECT * FROM " ++ tableName ++ whereText (where_ options)
        ++ orderText (order options) ++ limitText (limit options)
        ++ offsetText (offset options),
        (whereParams (where_ options) ++ numberParam (limit options)
         ++ numberParam (offset options))%list).
Proof.
  intro Hw. unfold buildSelect. unfold bind at 1.
  rewrite appendWhere_text by exact Hw.
  destruct options as [w l off ord]. cbn [where_ limit offset order].
  unfold bind, ret, push.
  destruct ord as [[|o ord]|], l as [l|], off as [off|];
    cbn [orderText limitText offsetText numberParam app fst snd];
    rewrite ?orderParts_pairs, ?append_assoc, ?append_nil_r,
      <- ?app_assoc, ?app_nil_r;
    reflexivity.
Qed.

Lemma buildDelete_text (tableName : string) (options : DestroyOptions) :
  wellTypedOpt (destroy_where options) = true ->
  buildDelete tableName options
  = Ok ("DELETE FROM " ++ tableName ++ whereText (destroy_where options),
        whereParams (destroy_where options)).
Proof.
  intro Hw. unfold buildDelete.
  rewrite appendWhere_text by exact Hw. now rewrite append_assoc.
Qed.

Lemma buildUpdate_text (tableName : string) (data : Object)
  (options : UpdateOptions) :
  data <> [] ->
  wellTypedOpt (update_where options) = true ->
  buildUpdate tableName data options
  = Ok ("UPDATE " ++ tableName ++ " SET " ++ setText data
        ++ whereText (update_where options),
        (values data ++ whereParams (update_where options))%list).
Proof.
  intros Hdata Hw. unfold buildUpdate.
  destruct data as [|entry data]; [congruence|].
  cbn [keys map List.length Nat.eqb].
  rewrite appendWhere_text by exact Hw.
  unfold setText. cbn [keys map]. now rewrite !append_assoc.
Qed.

Lemma comparison_balanced (key : string) (v : JSValue)
  (prop sqlop : string) :
  clean key = true -> placeholders sqlop = 1 ->
  Forall (fun fr : Fragment => placeholders (fst fr) = List.length (snd fr))
    (comparison key v prop sqlop).
Proof.
  unfold clean, comparison. intros Hkey Hop. apply Nat.eqb_eq in Hkey.
  destruct (defined (getProp v prop)); constructor; [|constructor].
  cbn [fst snd List.length]. rewrite placeholders_app. lia.
Qed.

Lemma operatorFragments_balanced (key : string) (v : JSValue) :
  clean key = true ->
  Forall (fun fr : Fragment => placeholders (fst fr) = List.length (snd fr))
    (operatorFragments key v).
Proof.
  intro Hkey. unfold operatorFragments.
  repeat (apply Forall_app; split;
          [apply comparison_balanced; [exact Hkey | reflexivity]|]).
  unfold inList. destruct (getProp v "$in"); constructor; [|constructor].
  cbn [fst snd]. unfold clean in Hkey. apply Nat.eqb_eq in Hkey.
  rewrite !placeholders_app, placeholders_repeat, Hkey. simpl. lia.
Qed.

Lemma condition_balanced (entry : string * JSValue) :
  clean (fst entry) = true ->
  placeholders (fst (condition entry)) = List.length (snd (condition entry)).
Proof.
  destruct entry as [key value]. cbn [fst]. intro Hkey.
  unfold condition.
  destruct (nullish value); [|destruct (isOperator value)]; cbn [fst snd].
  - unfold clean in Hkey. apply Nat.eqb_eq in Hkey.
    rewrite placeholders_app, Hkey. reflexivity.
  - apply placeholders_fragments; [reflexivity|].
    now apply operatorFragments_balanced.
  - unfold clean in Hkey. apply Nat.eqb_eq in Hkey.
    rewrite placeholders_app, Hkey. reflexivity.
Qed.

Lemma whereText_balanced (w : option Object) :
  cleanKeys w = true ->
  placeholders (whereText w) = List.length (whereParams w).
Proof.
  destruct w as [w|]; [|reflexivity]. cbn [cleanKeys]. intro Hkeys.
  assert (Hall :
    Forall (fun fr : Fragment =>
              placeholders (fst fr) = List.length (snd fr))
      (map condition w)).
  { apply Forall_map. unfold keys in Hkeys.
    rewrite forallb_forall in Hkeys. apply Forall_forall.
    intros entry Hin. apply condition_balanced. apply Hkeys.
    now apply in_map. }
  destruct w as [|entry w]; [reflexivity|].
  cbn [whereText whereParams]. rewrite placeholders_app.
  rewrite (placeholders_fragments " AND "); [reflexivity|reflexivity|].
  exact Hall.
Qed.

Lemma orderText_clean (o : option (list (string * Direction))) :
  cleanOrder o = true -> placeholders (orderText o) = 0.
Proof.
  destruct o as [o|]; [|reflexivity]. cbn [cleanOrder]. intro Hclean.
  destruct o as [|p o]; [reflexivity|].
  cbn [orderText]. rewrite placeholders_app.
  rewrite placeholders_join by reflexivity.
  rewrite forallb_forall in Hclean.
  assert (Hzero : forall l : list (string * Direction),
             (forall x, In x (map fst l) -> clean x = true) ->
             list_sum
               (map placeholders
                  (map (fun p => fst p ++ " " ++ directionText (snd p)) l))
             = 0).
  { induction l as [|[field d] l IH]; [reflexivity|]. intro Hl.
    cbn [map list_sum fold_right fst snd]. unfold list_sum in IH.
    rewrite IH by (intros x Hx; apply Hl; now right).
    assert (Hf : clean field = true) by (apply Hl; now left).
    unfold clean in Hf. apply Nat.eqb_eq in Hf.
    rewrite !placeholders_app, Hf. now destruct d. }
  now rewrite Hzero.
Qed.

Lemma setText_placeholders (data : Object) :
  forallb clean (keys data) = true ->
  placeholders (setText data) = List.length (values data).
Proof.
  intro Hclean. unfold setText. rewrite placeholders_join by reflexivity.
  unfold keys, values in *. rewrite !map_map, length_map.
  induction data as [|[key value] data IH]; [reflexivity|].
  cbn [map forallb fst] in Hclean. apply andb_true_iff in Hclean.
  destruct Hclean as [Hk Hrest].
  cbn [map list_sum fold_right fst List.length]. unfold list_sum in IH.
  rewrite IH by exact Hrest.
  unfold clean in Hk. apply Nat.eqb_eq in Hk.
  rewrite placeholders_app, Hk. reflexivity.
Qed.

Lemma placeholders_marks (data : Object) :
  placeholders (join ", " (map (fun _ => "?") (keys data)))
  = List.length (values data).
Proof.
  rewrite map_placeholder, placeholders_repeat.
  unfold keys, values. now rewrite !length_map.
Qed.

Lemma columns_clean (data : Object) :
  forallb clean (keys data) = true ->
  placeholders (join ", " (keys data)) = 0.
Proof.
  intro Hclean. rewrite placeholders_join by reflexivity.
  induction (keys data) as [|key l IH]; [reflexivity|].
  cbn [forallb] in Hclean. apply andb_true_iff in Hclean.
  destruct Hclean as [Hk Hrest]. unfold clean in Hk.
  apply Nat.eqb_eq in Hk.
  cbn [map list_sum fold_right]. unfold list_sum in IH.
  now rewrite IH, Hk.
Qed.

End BuilderForms.

(* ================================================================== *)
(** ** The builder raises nothing but the [$in] type error *)
(* ================================================================== *)

Section BuilderExceptions.
Import JS Types QueryBuilder Spec.

Lemma buildOperatorCondition_raises (key : string) (v : JSValue)
  (ps : Params) (e : Exception) :
  buildOperatorCondition key v ps = Throw e -> exists m, e = TypeError m.
Proof.
  unfold buildOperatorCondition, bind, push, ret, throw, append1.
  destruct (defined (getProp v "$gt"));
    destruct (defined (getProp v "$gte"));
    destruct (defined (getProp v "$lt"));
    destruct (defined (getProp v "$lte"));
    destruct (defined (getProp v "$ne"));
    destruct (defined (getProp v "$like"));
    destruct (getProp v "$in");
    intro H; try discriminate H; inversion H; eauto.
Qed.

Lemma whereEntries_raises (w : Object) :
  forall (conditions : list string) (ps : Params) (e : Exception),
    whereEntries w conditions ps = Throw e -> exists m, e = TypeError m.
Proof.
  induction w as [|[key value] w IH]; intros conditions ps e.
  - discriminate.
  - cbn [whereEntries]. unfold bind at 1.
    destruct (nullish value).
    + unfold ret. apply IH.
    + destruct (isOperator value).
      * unfold bind, ret.
        destruct (buildOperatorCondition key value ps) as [[c ps']|e']
          eqn:Hop.
        -- apply IH.
        -- intro H. inversion H; subst.
           now apply (buildOperatorCondition_raises key value ps).
      * unfold bind, push, ret. apply IH.
Qed.

Lemma appendWhere_raises (sql : string) (w : option Object) (ps : Params)
  (e : Exception) :
  appendWhere sql w ps = Throw e -> exists m, e = TypeError m.
Proof.
  destruct w as [w|]; [|discriminate].
  unfold appendWhere, buildWhereClause, bind.
  destruct (whereEntries w [] ps) as [[c ps']|e'] eqn:Hw.
  - unfold ret. destruct (String.eqb _ _); discriminate.
  - intro H. inversion H; subst. now apply (whereEntries_raises w [] ps).
Qed.

End BuilderExceptions.

(* ================================================================== *)
(** ** Properties of the statement builder *)
(* ================================================================== *)

Section BuilderProperties.
Import JS Types QueryBuilder Spec.

(** C2. For a column whose where-value is an operator set the WHERE
    builder emits one SQL fragment per present operator key, joined with
    AND, in the fixed order gt, gte, lt, lte, ne, like, in (the keys
    [$gt] ... [$in] of the object, whatever order the object lists them
    in), and pushes each operator's parameters in that same order.  In
    particular [{gte: 10, lte: 20}] on [age] gives
    [age >= ? AND age <= ?] with parameters [10, 20], and an in-list of
    length n gives [<col> IN (?, ..., ?)] with n placeholders and the n
    elements as parameters in order. *)
Theorem operator_set_expansion :
  (forall (key : string) (v : JSValue) (ps : Params),
      isOperator v = true -> inIsArray v = true ->
      buildOperatorCondition key v ps
      = Ok (sqlOf " AND " (operatorFragments key v),
            (ps ++ paramsOf (operatorFragments key v))%list)
      /\ buildWhereClause [(key, v)] ps
         = Ok (sqlOf " AND " (operatorFragments key v),
               (ps ++ paramsOf (operatorFragments key v))%list))
  /\ (forall (w : Object) (ps : Params),
         wellTyped w = true ->
         buildWhereClause w ps
         = Ok (sqlOf " AND " (map condition w),
               (ps ++ paramsOf (map condition w))%list))
  /\ (forall (key : string) (v : JSValue),
         isOperator v = true ->
         condition (key, v)
         = (sqlOf " AND " (operatorFragments key v),
            paramsOf (operatorFragments key v)))
  /\ buildWhereClause
       [("age", JObject [("$gte", JNumber 10); ("$lte", JNumber 20)])] []
     = Ok ("age >= ? AND age <= ?", [JNumber 10; JNumber 20])
  /\ buildWhereClause
       [("k", JObject [("$in", JArray [JNumber 7; JNumber 8]);
                       ("$like", JString "a%"); ("$ne", JNumber 6);
                       ("$lte", JNumber 5); ("$lt", JNumber 4);
                       ("$gte", JNumber 3); ("$gt", JNumber 2)])] []
     = Ok ("k > ? AND k >= ? AND k < ? AND k <= ? AND k != ? AND k LIKE ?"
           ++ " AND k IN (?, ?)",
           [JNumber 2; JNumber 3; JNumber 4; JNumber 5; JNumber 6;
            JString "a%"; JNumber 7; JNumber 8])
  /\ (forall (key : string) (xs : list JSValue) (ps : Params),
         buildWhereClause [(key, JObject [("$in", JArray xs)])] ps
         = Ok (key ++ " IN (" ++ join ", " (repeat "?" (List.length xs))
               ++ ")",
               (ps ++ xs)%list)).
Proof.
  split; [|split; [|split; [|split; [reflexivity|split; [reflexivity|]]]]].
  - intros key v ps Hop Hin. split.
    + now apply buildOperatorCondition_fragments.
    + rewrite buildWhereClause_conditions.
      * unfold sqlOf at 1, paramsOf at 1. cbn [map condition].
        assert (Hnull : nullish v = false)
          by (destruct v; try discriminate Hop; reflexivity).
        rewrite Hnull, Hop. cbn [fst snd concat join String.concat].
        rewrite app_nil_r. reflexivity.
      * cbn [wellTyped forallb]. unfold entryTyped. cbn [snd].
        rewrite Hin. now rewrite !orb_true_r.
  - intros w ps Hw. now apply buildWhereClause_conditions.
  - intros key v Hop. unfold condition.
    assert (Hnull : nullish v = false)
      by (destruct v; try discriminate Hop; reflexivity).
    now rewrite Hnull, Hop.
  - intros key xs ps. rewrite buildWhereClause_conditions by reflexivity.
    unfold sqlOf, paramsOf. cbn. now rewrite !app_nil_r.
Qed.

Lemma operator_set_expansion_witness :
  isOperator (JObject [("$lt", JNumber 35)]) = true
  /\ inIsArray (JObject [("$lt", JNumber 35)]) = true
  /\ buildWhereClause [("age", JObject [("$lt", JNumber 35)])] [JNumber 1]
     = Ok ("age < ?", [JNumber 1; JNumber 35]).
Proof.
  split; [reflexivity|split; [reflexivity|]].
  exact (proj2 (proj1 operator_set_expansion "age"
                 (JObject [("$lt", JNumber 35)]) [JNumber 1]
                 eq_refl eq_refl)).
Defined.

(** C10. An empty in-list [{ $in: [] }] is still classified as an
    operator set and yields, without any error, the fragment
    [<col> IN ()] with no parameter: [buildSelect] on table [t] with
    where [{ id: { $in: [] } }] returns
    [SELECT * FROM t WHERE id IN ()] and an empty parameter list. *)
Theorem empty_in_list_emits_in_parens (tableName col : string) :
  isOperator (JObject [("$in", JArray [])]) = true
  /\ buildSelect tableName
       {| where_ := Some [(col, JObject [("$in", JArray [])])];
          limit := None; offset := None; order := None |}
     = Ok ("SELECT * FROM " ++ tableName ++ " WHERE " ++ col ++ " IN ()",
           [])
  /\ buildSelect "t"
       {| where_ := Some [("id", JObject [("$in", JArray [])])];
          limit := None; offset := None; order := None |}
     = Ok ("SELECT * FROM t WHERE id IN ()", []).
Proof.
  split; [reflexivity|split; [|reflexivity]].
  rewrite buildSelect_text by reflexivity.
  cbn. now rewrite !append_nil_r.
Qed.

(** C3. [buildSelect] emits [SELECT * FROM <table>] followed by at most
    four clauses in exactly the order WHERE, ORDER BY, LIMIT, OFFSET; the
    ORDER BY clause lists the [<column> <direction>] pairs comma-joined in
    descriptor order; LIMIT and OFFSET are emitted as [LIMIT ?] and
    [OFFSET ?], their values pushed after all WHERE parameters; a clause
    whose descriptor field is absent is omitted, and no clause is ever
    emitted empty. *)
Theorem buildSelect_clause_order (tableName : string)
  (options : FindOptions) :
  wellTypedOpt (where_ options) = true ->
  buildSelect tableName options
  = Ok ("SELECT * FROM " ++ tableName ++ whereText (where_ options)
        ++ orderText (order options) ++ limitText (limit options)
        ++ offsetText (offset options),
        (whereParams (where_ options) ++ numberParam (limit options)
         ++ numberParam (offset options))%list)
  /\ whereText None = "" /\ whereParams None = []
  /\ whereText (Some []) = "" /\ whereParams (Some []) = []
  /\ orderText None = "" /\ orderText (Some []) = ""
  /\ limitText None = "" /\ offsetText None = ""
  /\ numberParam None = []
  /\ (whereText (where_ options) = ""
      \/ exists c, c <> "" /\ whereText (where_ options) = " WHERE " ++ c)
  /\ (orderText (order options) = ""
      \/ exists c, c <> ""
                   /\ orderText (order options) = " ORDER BY " ++ c).
Proof.
  intro Hw. split; [now apply buildSelect_text|].
  do 9 (split; [reflexivity|]).
  split.
  - destruct (where_ options) as [[|entry w]|]; [now left| |now left].
    right. eexists. split; [|reflexivity].
    apply join_nonempty.
    + discriminate.
    + now apply wellTyped_conditions.
  - destruct (order options) as [[|p o]|]; [now left| |now left].
    right. eexists. split; [|reflexivity].
    apply join_nonempty; [discriminate|].
    apply Forall_map. apply Forall_forall. intros [field d] _.
    cbn [fst snd]. apply append_nonempty_r. discriminate.
Qed.

Lemma buildSelect_clause_order_witness :
  buildSelect "t"
    {| where_ := None; limit := Some 2%Z; offset := Some 2%Z;
       order := Some [("name", ASC)] |}
  = Ok ("SELECT * FROM t ORDER BY name ASC LIMIT ? OFFSET ?",
        [JNumber 2; JNumber 2]).
Proof.
  exact (proj1 (buildSelect_clause_order "t"
                  {| where_ := None; limit := Some 2%Z;
                     offset := Some 2%Z;
                     order := Some [("name", ASC)] |} eq_refl)).
Defined.

(** C4. [buildUpdate] fails with the empty-update error
    ([No data to update]) if and only if the partial record has no key,
    and then no statement is built ([update] hands nothing to the
    gateway); for a partial record with at least
    one key it does not fail and returns
    [UPDATE <table> SET k1 = ?, k2 = ? ...] with the parameters being the
    SET values followed by the WHERE values. *)
Theorem buildUpdate_empty_update (tableName : string) (data : Object)
  (options : UpdateOptions) :
  (buildUpdate tableName data options = Throw (Error "No data to update")
   <-> data = [])
  /\ (data <> [] ->
      wellTypedOpt (update_where options) = true ->
      buildUpdate tableName data options
      = Ok ("UPDATE " ++ tableName ++ " SET "
            ++ join ", " (map (fun key => key ++ " = ?") (keys data))
            ++ whereText (update_where options),
            (values data ++ whereParams (update_where options))%list))
  /\ (forall (engine : Database.Engine) (tables : MetadataStorage.Tables)
             (this : Model.ModelClass) (st : Database.State),
         Model.update engine tables this [] options st
         = (Throw (Error "No data to update"), st)).
Proof.
  split; [|split].
  - split.
    + intro H. destruct data as [|entry data]; [reflexivity|].
      unfold buildUpdate in H. cbn [keys map List.length Nat.eqb] in H.
      apply appendWhere_raises in H. destruct H as [m Hm]. discriminate.
    + now intros ->.
  - intros Hdata Hw. now apply buildUpdate_text.
  - reflexivity.
Qed.

Lemma buildUpdate_empty_update_witness :
  buildUpdate "users" [("age", JNumber 31)]
    {| update_where := Some [("id", JNumber 1)] |}
  = Ok ("UPDATE users SET age = ? WHERE id = ?", [JNumber 31; JNumber 1]).
Proof.
  refine (proj1 (proj2 (buildUpdate_empty_update "users"
                          [("age", JNumber 31)]
                          {| update_where := Some [("id", JNumber 1)] |}))
            _ _).
  - discriminate.
  - reflexivity.
Defined.

(** C9. When the table name and the column names contain no ['?'], each
    of [buildSelect], [buildInsert], [buildDelete] and [buildUpdate] (on a
    non-empty partial record) returns a pair [(sql, params)] in which the
    number of ['?'] in [sql] equals the length of [params]: null
    where-values bind nothing, operator sets and in-lists of any length
    bind one parameter per placeholder. *)
Theorem placeholders_match_params (tableName : string) :
  clean tableName = true ->
  (forall options : FindOptions,
      wellTypedOpt (where_ options) = true ->
      cleanKeys (where_ options) = true ->
      cleanOrder (order options) = true ->
      balanced (buildSelect tableName options))
  /\ (forall data : Object,
         cleanKeys (Some data) = true ->
         balanced (buildInsert tableName data))
  /\ (forall options : DestroyOptions,
         wellTypedOpt (destroy_where options) = true ->
         cleanKeys (destroy_where options) = true ->
         balanced (buildDelete tableName options))
  /\ (forall (data : Object) (options : UpdateOptions),
         data <> [] ->
         cleanKeys (Some data) = true ->
         wellTypedOpt (update_where options) = true ->
         cleanKeys (update_where options) = true ->
         balanced (buildUpdate tableName data options)).
Proof.
  unfold clean at 1. intro Ht. apply Nat.eqb_eq in Ht.
  repeat split.
  - intros options Hw Hkeys Hord. eexists. eexists.
    split; [now apply buildSelect_text|].
    rewrite !placeholders_app, Ht, (whereText_balanced _ Hkeys),
      (orderText_clean _ Hord), !length_app.
    destruct (limit options), (offset options); simpl; lia.
  - intros data Hkeys. eexists. eexists. split; [reflexivity|].
    cbn [cleanKeys] in Hkeys.
    rewrite !placeholders_app, Ht, (columns_clean _ Hkeys),
      placeholders_marks.
    simpl. lia.
  - intros options Hw Hkeys. eexists. eexists.
    split; [now apply buildDelete_text|].
    rewrite !placeholders_app, Ht, (whereText_balanced _ Hkeys).
    reflexivity.
  - intros data options Hdata Hkeys Hw Hwkeys. eexists. eexists.
    split; [now apply buildUpdate_text|].
    cbn [cleanKeys] in Hkeys.
    rewrite !placeholders_app, Ht, (setText_placeholders _ Hkeys),
      (whereText_balanced _ Hwkeys), length_app.
    simpl. lia.
Qed.

Lemma placeholders_match_params_witness :
  balanced
    (buildSelect "t"
       {| where_ := Some [("deletedAt", JNull);
                          ("age", JObject [("$gte", JNumber 10);
                                           ("$lte", JNumber 20)]);
                          ("id", JObject [("$in", JArray [JNumber 1;
                                                          JNumber 2;
                                                          JNumber 3])]);
                          ("name", JString "A")];
          limit := Some 2%Z; offset := None;
          order := Some [("name", DESC)] |})
  /\ balanced (buildInsert "t" [("email", JString "a@b.com");
                                ("name", JString "A")])
  /\ balanced
       (buildDelete "t"
          {| destroy_where := Some [("id", JObject [("$in", JArray [])])] |})
  /\ balanced
       (buildUpdate "t" [("age", JNumber 31); ("nick", JNull)]
          {| update_where := Some [("id", JNumber 1)] |}).
Proof.
  pose proof (placeholders_match_params "t" eq_refl) as [Hs [Hi [Hd Hu]]].
  split; [|split; [|split]].
  - apply Hs; reflexivity.
  - apply Hi; reflexivity.
  - apply Hd; reflexivity.
  - apply Hu; [discriminate|reflexivity|reflexivity|reflexivity].
Defined.

Lemma replaceQuotes_doubled (s : string) : replaceQuotes s = doubled s.
Proof.
  induction s as [|c s IH]; [reflexivity|].
  cbn [replaceQuotes doubled]. rewrite IH.
  now destruct (Ascii.eqb c "'"%char).
Qed.

Lemma formatValue_literal (v : JSValue) : formatValue v = literal v.
Proof.
  destruct v as [| |[|]| | | |]; try reflexivity.
  cbn [formatValue literal]. now rewrite replaceQuotes_doubled.
Qed.

Lemma columnDef_text (col : ColumnDef) : columnDef col = columnText col.
Proof.
  unfold columnDef, columnText, primaryKeyText, notNullText, uniqueText,
    defaultText, truthy.
  rewrite formatValue_literal.
  destruct (col_primaryKey col) as [[|]|];
    destruct (col_autoIncrement col) as [[|]|];
    destruct (col_nullable col) as [[|]|];
    destruct (col_unique col) as [[|]|];
    destruct (col_defaultValue col);
    cbn [defined];
    rewrite ?append_assoc, ?append_nil_r; reflexivity.
Qed.

(** C6. [buildCreateTable] returns
    [CREATE TABLE IF NOT EXISTS <table> (...)] where each column
    definition is [<name> <type>] followed, in fixed order, by
    [ PRIMARY KEY] (with [ AUTOINCREMENT] when autoIncrement) when
    primaryKey is true, [ NOT NULL] exactly when nullable is explicitly
    false, [ UNIQUE] when unique is true and [ DEFAULT <literal>] when
    defaultValue is set; a string default is single-quoted with embedded
    single quotes doubled, a null default is the keyword [NULL], numeric
    and boolean defaults are their textual literal. *)
Theorem buildCreateTable_columns (tableName : string)
  (columns : list ColumnDef) :
  buildCreateTable tableName columns
  = "CREATE TABLE IF NOT EXISTS " ++ tableName ++ " ("
    ++ join ", " (map columnText columns) ++ ")"
  /\ (forall s, formatValue (JString s) = "'" ++ doubled s ++ "'")
  /\ formatValue JNull = "NULL"
  /\ (forall n, formatValue (JNumber n) = numberToString n)
  /\ formatValue (JBool true) = "true"
  /\ formatValue (JBool false) = "false"
  /\ formatValue (JString "it's") = "'it''s'"
  /\ formatValue (JNumber 0) = "0"
  /\ buildCreateTable "users"
       [ {| col_name := "id"; col_type := "INTEGER";
            col_primaryKey := Some true; col_autoIncrement := Some true;
            col_nullable := Some false; col_unique := None;
            col_defaultValue := JUndefined |};
         {| col_name := "email"; col_type := "TEXT";
            col_primaryKey := None; col_autoIncrement := None;
            col_nullable := Some false; col_unique := Some true;
            col_defaultValue := JString "n/a" |};
         {| col_name := "age"; col_type := "INTEGER";
            col_primaryKey := None; col_autoIncrement := Some true;
            col_nullable := Some true; col_unique := Some false;
            col_defaultValue := JNull |} ]
     = "CREATE TABLE IF NOT EXISTS users ("
       ++ "id INTEGER PRIMARY KEY AUTOINCREMENT NOT NULL, "
       ++ "email TEXT NOT NULL UNIQUE DEFAULT 'n/a', "
       ++ "age INTEGER DEFAULT NULL)".
Proof.
  split.
  - unfold buildCreateTable.
    now rewrite (map_ext _ _ columnDef_text).
  - repeat split; try reflexivity.
    intro s. apply (formatValue_literal (JString s)).
Qed.

End BuilderProperties.

(* ================================================================== *)
(** ** Properties of the metadata registry and the decorators *)
(* ================================================================== *)

Section Registry.
Import JS Types MetadataStorage Decorators Spec.

Lemma Map_get_set_same {V} (k : string) (v : V) (m : Map V) :
  Map_get k (Map_set k v m) = Some v.
Proof.
  induction m as [|[k' v'] m IH]; cbn [Map_set Map_get].
  - now rewrite String.eqb_refl.
  - destruct (String.eqb k k') eqn:Hk; cbn [Map_get]; rewrite Hk.
    + reflexivity.
    + exact IH.
Qed.

Lemma Map_set_set {V} (k : string) (v v' : V) (m : Map V) :
  Map_set k v (Map_set k v' m) = Map_set k v m.
Proof.
  induction m as [|[k0 v0] m IH]; cbn [Map_set].
  - now rewrite String.eqb_refl.
  - destruct (String.eqb k k0) eqn:Hk; cbn [Map_set]; rewrite Hk.
    + reflexivity.
    + now rewrite IH.
Qed.

(** Insertion order: a new key goes last, a known key keeps its place. *)
Lemma Map_set_keys {V} (k : string) (v : V) (m : Map V) :
  map fst (Map_set k v m)
  = if Map_has k m then map fst m else (map fst m ++ [k])%list.
Proof.
  unfold Map_has.
  induction m as [|[k0 v0] m IH]; cbn [Map_set Map_get]; [reflexivity|].
  destruct (String.eqb k k0) eqn:Hk; [reflexivity|].
  cbn [map fst]. rewrite IH.
  now destruct (Map_get k m).
Qed.

Lemma registerTable_lookup (className tableName : string)
  (tables : Tables) :
  getTableMetadata className (registerTable className tableName tables)
  = Some {| tableName := tableName;
            columns := match getTableMetadata className tables with
                       | Some metadata => columns metadata
                       | None => []
                       end |}.
Proof.
  unfold registerTable, getTableMetadata, Map_has.
  destruct (Map_get className tables); cbn [negb];
    apply Map_get_set_same.
Qed.

Lemma registerColumn_lookup (className propertyKey : string)
  (metadata : ColumnMetadata) (tables : Tables) :
  getTableMetadata className
    (registerColumn className propertyKey metadata tables)
  = Some {| tableName := match getTableMetadata className tables with
                         | Some existing => Types.tableName existing
                         | None => toLowerCase className
                         end;
            columns := Map_set propertyKey metadata
                         match getTableMetadata className tables with
                         | Some existing => columns existing
                         | None => []
                         end |}.
Proof.
  unfold registerColumn, getTableMetadata, Map_has.
  destruct (Map_get className tables) as [existing|] eqn:Hget;
    cbn [negb].
  - rewrite Hget. apply Map_get_set_same.
  - rewrite Map_get_set_same. cbn [tableName columns].
    apply Map_get_set_same.
Qed.

Lemma registerColumn_stores (className propertyKey : string)
  (metadata : ColumnMetadata) (tables : Tables) :
  existingColumn className propertyKey
    (registerColumn className propertyKey metadata tables)
  = Some metadata.
Proof.
  unfold existingColumn. rewrite registerColumn_lookup.
  cbn [columns]. apply Map_get_set_same.
Qed.

(** C8. [registerTable] is an idempotent upsert: with no descriptor for
    the model key it creates one with the given table name and an empty
    column map, otherwise it updates only the table name and leaves the
    registered columns unchanged; [registerColumn] on a model without
    descriptor creates one whose table name is the model key
    lower-cased. *)
Theorem registerTable_upsert (className tableName : string)
  (tables : Tables) :
  getTableMetadata className (registerTable className tableName tables)
  = Some {| tableName := tableName;
            columns := match getTableMetadata className tables with
                       | Some metadata => columns metadata
                       | None => []
                       end |}
  /\ registerTable className tableName
       (registerTable className tableName tables)
     = registerTable className tableName tables
  /\ (forall (propertyKey : string) (metadata : ColumnMetadata),
         getTableMetadata className
           (registerColumn className propertyKey metadata tables)
         = Some {| tableName :=
                     match getTableMetadata className tables with
                     | Some existing => Types.tableName existing
                     | None => toLowerCase className
                     end;
                   columns :=
                     Map_set propertyKey metadata
                       match getTableMetadata className tables with
                       | Some existing => columns existing
                       | None => []
                       end |})
  /\ getTableMetadata "User"
       (registerColumn "User" "id"
          {| name := "id"; type := INTEGER; primaryKey := Some true;
             autoIncrement := Some true; nullable := Some false;
             unique := None; defaultValue := JUndefined |} [])
     = Some {| tableName := "user";
               columns :=
                 [("id",
                   {| name := "id"; type := INTEGER;
                      primaryKey := Some true;
                      autoIncrement := Some true;
                      nullable := Some false; unique := None;
                      defaultValue := JUndefined |})] |}.
Proof.
  split; [apply registerTable_lookup|].
  split; [|split; [intros; apply registerColumn_lookup|reflexivity]].
  pose proof (registerTable_lookup className tableName tables) as Hget.
  unfold getTableMetadata in Hget.
  unfold registerTable at 1. unfold Map_has. rewrite Hget. cbn [negb columns].
  unfold registerTable, Map_has.
  destruct (Map_get className tables) as [metadata|]; cbn [negb];
    apply Map_set_set.
Qed.

(** C1 (as amended). The registry's [registerColumn] stores the
    descriptor it is given in place of any earlier one; the merge is done
    by the [NotNull], [Unique] and [Default] declarations, which copy
    every field of the descriptor stored for the property (or of
    [{name: property, type: TEXT}] when there is none) and set only
    [nullable = false], [unique = true] or [defaultValue]; in particular
    not-null registered after a TEXT column declaration leaves the stored
    type TEXT and sets nullable to false. *)
Theorem modifiers_merge_registerColumn_replaces
  (className propName : string) (tables : Tables) :
  let base := orTextColumn (existingColumn className propName tables)
                propName in
  (forall metadata : ColumnMetadata,
      existingColumn className propName
        (registerColumn className propName metadata tables)
      = Some metadata)
  /\ existingColumn className propName (NotNull className propName tables)
     = Some {| name := name base; type := type base;
               primaryKey := primaryKey base;
               autoIncrement := autoIncrement base;
               nullable := Some false;
               unique := unique base;
               defaultValue := defaultValue base |}
  /\ existingColumn className propName (Unique className propName tables)
     = Some {| name := name base; type := type base;
               primaryKey := primaryKey base;
               autoIncrement := autoIncrement base;
               nullable := nullable base;
               unique := Some true;
               defaultValue := defaultValue base |}
  /\ (forall value : JSValue,
         existingColumn className propName
           (Default value className propName tables)
         = Some {| name := name base; type := type base;
                   primaryKey := primaryKey base;
                   autoIncrement := autoIncrement base;
                   nullable := nullable base;
                   unique := unique base;
                   defaultValue := value |})
  /\ (forall tsType : option string,
         existingColumn className propName
           (NotNull className propName
              (Column (TypeArg TEXT) tsType className propName tables))
         = Some {| name := propName; type := TEXT; primaryKey := None;
                   autoIncrement := None; nullable := Some false;
                   unique := None; defaultValue := JUndefined |}).
Proof.
  intro base.
  split; [intro; apply registerColumn_stores|].
  split; [apply registerColumn_stores|].
  split; [apply registerColumn_stores|].
  split; [intro; apply registerColumn_stores|].
  intro tsType. unfold NotNull. rewrite registerColumn_stores.
  unfold Column. rewrite registerColumn_stores.
  now destruct tsType.
Qed.

(** C1, as stated, fails on the registry: a later registration that
    leaves [primaryKey] unset does not keep the earlier [primaryKey];
    and a [Column] declaration applied after [NotNull] drops the
    [nullable = false] it had stored. *)
Lemma registration_replaces_counterexample :
  ~ registrationMerges
  /\ existingColumn "User" "email" (NotNull "User" "email" [])
     = Some {| name := "email"; type := TEXT; primaryKey := None;
               autoIncrement := None; nullable := Some false;
               unique := None; defaultValue := JUndefined |}
  /\ existingColumn "User" "email"
       (Column (TypeArg TEXT) None "User" "email"
          (NotNull "User" "email" []))
     = Some {| name := "email"; type := TEXT; primaryKey := None;
               autoIncrement := None; nullable := None;
               unique := None; defaultValue := JUndefined |}.
Proof.
  split; [|split; reflexivity].
  intro H.
  destruct (H "User" "id"
              {| name := "id"; type := INTEGER; primaryKey := Some true;
                 autoIncrement := Some true; nullable := Some false;
                 unique := None; defaultValue := JUndefined |}
              {| name := "id"; type := TEXT; primaryKey := None;
                 autoIncrement := None; nullable := None;
                 unique := None; defaultValue := JUndefined |}
              []) as [stored [Hstored [Hpk _]]].
  rewrite registerColumn_stores in Hstored.
  inversion Hstored; subst stored.
  specialize (Hpk eq_refl). discriminate Hpk.
Qed.

End Registry.

(* ================================================================== *)
(** ** Statements that reach the SQLite handle *)
(* ================================================================== *)

Section Gateway.
Import JS Types Database.

Lemma reverse_snoc (u : string) (c : ascii) :
  reverse (u ++ String c "") = String c (reverse u).
Proof.
  induction u as [|x u IH]; [reflexivity|].
  cbn [append reverse]. now rewrite IH.
Qed.

Lemma trimStart_snoc (c : ascii) (a : string) :
  isSpace c = false ->
  exists u, trimStart (a ++ String c "") = u ++ String c "".
Proof.
  intro Hc. induction a as [|x a IH].
  - exists "". cbn [append trimStart]. now rewrite Hc.
  - cbn [append trimStart]. destruct (isSpace x).
    + exact IH.
    + now exists (String x a).
Qed.

(** Trimming keeps a leading character that is not white space. *)
Lemma trim_head (c : ascii) (s : string) :
  isSpace c = false -> exists u, trim (String c s) = String c u.
Proof.
  intro Hc. unfold trim. cbn [trimStart]. rewrite Hc. cbn [reverse].
  destruct (trimStart_snoc c (reverse s) Hc) as [u Hu].
  rewrite Hu, reverse_snoc. now exists (reverse u).
Qed.

Lemma not_select (c : ascii) (s : string) :
  isSpace c = false -> upperChar c <> "S"%char ->
  startsWith (toUpperCase (trim (String c s))) "SELECT" = false.
Proof.
  intros Hc Hs. destruct (trim_head c s Hc) as [u Hu]. rewrite Hu.
  unfold startsWith, toUpperCase. cbn [mapChars prefix].
  destruct (ascii_dec "S" (upperChar c)) as [Heq|]; [|reflexivity].
  now symmetry in Heq.
Qed.

(** A statement that does not begin with S goes to [runAsync]. *)
Lemma execute_runAsync (engine : Engine) (c : ascii) (rest : string)
  (params : list JSValue) (st : State) :
  connected st = true ->
  isSpace c = false -> upperChar c <> "S"%char ->
  execute engine (String c rest) params st
  = (match runAsync engine (issued st) (String c rest) params with
     | Ok (lastInsertRowId, changes) =>
         Ok {| rows := []; insertId := Some lastInsertRowId;
               rowsAffected := Some changes |}
     | Throw error => Throw error
     end,
     {| connected := connected st;
        issued := (issued st ++ [(String c rest, params)])%list |}).
Proof.
  intros Hconn Hc Hs. unfold execute. rewrite Hconn. cbn [negb].
  rewrite (not_select c rest Hc Hs).
  now destruct (runAsync engine (issued st) (String c rest) params)
    as [[id ch]|e].
Qed.

(** Whatever the handle answers, a connected gateway hands it the
    statement, and a gateway without handle hands it nothing. *)
Lemma execute_issued (engine : Engine) (sql : string)
  (params : list JSValue) (st : State) :
  issued (snd (execute engine sql params st))
  = (if connected st then (issued st ++ [(sql, params)])%list
     else issued st)
  /\ connected (snd (execute engine sql params st)) = connected st.
Proof.
  unfold execute. destruct (connected st) eqn:Hconn; cbn [negb].
  - destruct (startsWith _ _).
    + destruct (getAllAsync engine (issued st) sql params); now split.
    + destruct (runAsync engine (issued st) sql params) as [[id ch]|e];
        now split.
  - now split.
Qed.

End Gateway.

(* ================================================================== *)
(** ** Properties of the record accessor *)
(* ================================================================== *)

Section Accessor.
Import JS Types MetadataStorage Database Model Spec.

Variable engine : Engine.
Variable tables : Tables.

(** [sync] on a schema with columns is the optional DROP followed by
    the CREATE. *)
Lemma sync_with_columns (this : ModelClass) (force : option bool)
  (metadata : TableMetadata) (st : State) :
  getTableMetadata (className this) tables = Some metadata ->
  columns metadata <> [] ->
  let drop := "DROP TABLE IF EXISTS " ++ tableName metadata in
  let create :=
    QueryBuilder.buildCreateTable (tableName metadata)
      (map toColumnDef (columns metadata)) in
  sync engine tables this force st
  = if QueryBuilder.truthy force then
      match execute engine drop [] st with
      | (Ok _, st1) =>
          match execute engine create [] st1 with
          | (Ok _, st2) => (Ok tt, st2)
          | (Throw e, st2) => (Throw e, st2)
          end
      | (Throw e, st1) => (Throw e, st1)
      end
    else
      match execute engine create [] st with
      | (Ok _, st2) => (Ok tt, st2)
      | (Throw e, st2) => (Throw e, st2)
      end.
Proof.
  intros Hmeta Hcols drop create. unfold sync, getTableName.
  rewrite Hmeta.
  destruct (columns metadata) as [|entry cols] eqn:Hc; [congruence|].
  cbn [Map_size List.length Nat.eqb].
  unfold Database.bind, Database.ret. subst drop create.
  destruct (QueryBuilder.truthy force).
  - destruct (execute engine _ [] st) as [[r1|e1] st1]; [|reflexivity].
    now destruct (execute engine _ [] st1) as [[r2|e2] st2].
  - now destruct (execute engine _ [] st) as [[r2|e2] st2].
Qed.

(** C5. [sync] fails with the no-columns error when the resolved schema
    is absent or has no registered column, and then issues no SQL; a
    schema with columns never trips that guard (whatever [sync] raises
    then was raised by the gateway's [execute]).  With [force] it first
    issues [DROP TABLE IF EXISTS <table>] and then the
    [CREATE TABLE IF NOT EXISTS] statement built from the schema's
    columns in registration order; without [force] it issues the CREATE
    statement only, never a drop. *)
Theorem sync_drop_then_create (this : ModelClass) (force : option bool)
  (st : State) :
  (noSchema (getTableMetadata (className this) tables) = true ->
   sync engine tables this force st
   = (Throw (Error (noColumns this)), st))
  /\ (forall metadata : TableMetadata,
         getTableMetadata (className this) tables = Some metadata ->
         columns metadata <> [] ->
         let drop := "DROP TABLE IF EXISTS " ++ tableName metadata in
         let create :=
           QueryBuilder.buildCreateTable (tableName metadata)
             (map toColumnDef (columns metadata)) in
         (forall e,
             fst (sync engine tables this force st) = Throw e ->
             exists sql st0, fst (execute engine sql [] st0) = Throw e)
         /\ (connected st = true ->
             QueryBuilder.truthy force = false ->
             issued (snd (sync engine tables this force st))
             = (issued st ++ [(create, [])])%list
             /\ (runs engine (issued st) create ->
                 fst (sync engine tables this force st) = Ok tt))
         /\ (connected st = true ->
             QueryBuilder.truthy force = true ->
             runs engine (issued st) drop ->
             issued (snd (sync engine tables this force st))
             = (issued st ++ [(drop, []); (create, [])])%list
             /\ (runs engine (issued st ++ [(drop, [])])%list create ->
                 fst (sync engine tables this force st) = Ok tt)))
  /\ (forall (propertyKey : string) (metadata : ColumnMetadata)
             (cols : Map ColumnMetadata),
         map fst (Map_set propertyKey metadata cols)
         = if Map_has propertyKey cols then map fst cols
           else (map fst cols ++ [propertyKey])%list).
Proof.
  split; [|split; [|intros; apply Map_set_keys]].
  - unfold noSchema, sync. intro Hno.
    destruct (getTableMetadata (className this) tables) as [m|];
      [|reflexivity].
    destruct (columns m); [reflexivity|discriminate].
  - intros metadata Hmeta Hcols drop create.
    pose proof (sync_with_columns this force metadata st Hmeta Hcols)
      as Hsync.
    cbv zeta in Hsync. fold drop create in Hsync.
    assert (Hd : forall s, execute engine drop [] s
              = execute engine
                  (String "D" ("ROP TABLE IF EXISTS " ++ tableName metadata))
                  [] s) by reflexivity.
    assert (Hc : forall s, execute engine create [] s
              = execute engine
                  (String "C"
                     ("REATE TABLE IF NOT EXISTS " ++ tableName metadata
                      ++ " ("
                      ++ join ", "
                           (map QueryBuilder.columnDef
                              (map toColumnDef (columns metadata)))
                      ++ ")"))
                  [] s) by reflexivity.
    split; [|split].
    + intros e He. rewrite Hsync in He.
      destruct (QueryBuilder.truthy force).
      * destruct (execute engine drop [] st) as [[r1|e1] st1] eqn:H1.
        -- destruct (execute engine create [] st1) as [[r2|e2] st2] eqn:H2;
             [discriminate|].
           exists create, st1. rewrite H2. cbn [fst] in *. congruence.
        -- exists drop, st. rewrite H1. cbn [fst] in *. congruence.
      * destruct (execute engine create [] st) as [[r2|e2] st2] eqn:H2;
          [discriminate|].
        exists create, st. rewrite H2. cbn [fst] in *. congruence.
    + intros Hconn Hforce. rewrite Hsync, Hforce.
      pose proof (execute_issued engine create [] st) as [Hiss _].
      rewrite Hconn in Hiss.
      split.
      * destruct (execute engine create [] st) as [[r2|e2] st2];
          exact Hiss.
      * intros [[id ch] Hrun]. rewrite Hc.
        rewrite execute_runAsync; [|exact Hconn|reflexivity|discriminate].
        change (String "C" _) with create. now rewrite Hrun.
    + intros Hconn Hforce [[id ch] Hrun]. rewrite Hsync, Hforce.
      rewrite Hd.
      rewrite execute_runAsync; [|exact Hconn|reflexivity|discriminate].
      change (String "D" _) with drop. rewrite Hrun.
      set (st1 := {| connected := connected st;
                     issued := (issued st ++ [(drop, [])])%list |}).
      pose proof (execute_issued engine create [] st1) as [Hiss _].
      cbn [connected issued st1] in Hiss. rewrite Hconn in Hiss.
      rewrite <- app_assoc in Hiss. cbn [app] in Hiss.
      split.
      * destruct (execute engine create [] st1) as [[r2|e2] st2];
          exact Hiss.
      * intros [[id2 ch2] Hrun2]. rewrite Hc.
        rewrite execute_runAsync;
          [|exact Hconn|reflexivity|discriminate].
        change (String "C" _) with create.
        cbn [issued st1]. now rewrite Hrun2.
Qed.

Lemma withLimitOne_limitOne (options : option FindOptions) :
  withLimitOne options = limitOne options.
Proof. now destruct options. Qed.

(** C7. For every query descriptor, also one in which the caller set a
    limit, [findOne] is [findAll] on the descriptor with its limit
    replaced by 1, returning the first element of the result sequence or
    null when it is empty; the statement handed to the gateway carries
    [LIMIT ?] bound to 1. *)
Theorem findOne_is_findAll_limit_one (this : ModelClass)
  (options : option FindOptions) (st : State) :
  findOne engine tables this options st
  = (let (result, st') :=
       findAll engine tables this (Some (limitOne options)) st in
     (match result with
      | Ok rows => Ok (firstOrNull rows)
      | Throw e => Throw e
      end, st'))
  /\ limit (limitOne options) = Some 1%Z
  /\ (forall (o : FindOptions) (l : option Z),
         limitOne (Some {| where_ := where_ o; limit := l;
                           offset := offset o; order := order o |})
         = limitOne (Some o))
  /\ (wellTypedOpt (where_ (limitOne options)) = true ->
      connected st = true ->
      issued (snd (findOne engine tables this options st))
      = (issued st
         ++ [(("SELECT * FROM " ++ getTableName tables this
               ++ whereText (where_ (limitOne options))
               ++ orderText (order (limitOne options))
               ++ " LIMIT ?"
               ++ offsetText (offset (limitOne options)))%string,
              (whereParams (where_ (limitOne options))
               ++ [JNumber 1]
               ++ numberParam (offset (limitOne options)))%list)])%list).
Proof.
  split; [|split; [reflexivity|split; [reflexivity|]]].
  - unfold findOne. rewrite withLimitOne_limitOne.
    unfold Database.bind at 1.
    destruct (findAll engine tables this (Some (limitOne options)) st)
      as [[rows|e] st']; [|reflexivity].
    now destruct rows.
  - intros Hw Hconn. unfold findOne, findAll.
    rewrite withLimitOne_limitOne.
    rewrite (buildSelect_text _ _ Hw).
    unfold Database.bind, built, Database.ret.
    match goal with
    | |- context [execute engine ?sql ?ps st] =>
        pose proof (execute_issued engine sql ps st) as [Hiss _];
        destruct (execute engine sql ps st) as [[r|e] st']
    end; cbn [snd] in *; rewrite Hconn in Hiss; exact Hiss.
Qed.

End Accessor.

(* ================================================================== *)
(** ** The quick test script's model, run against its stand-in handle *)
(* ================================================================== *)

Section QuickTest.
Import JS Types MetadataStorage Database Model Spec.

Lemma sync_drop_then_create_witness :
  let st := {| connected := true; issued := [] |} in
  let create :=
    "CREATE TABLE IF NOT EXISTS users ("
    ++ "id INTEGER PRIMARY KEY AUTOINCREMENT NOT NULL, email TEXT, "
    ++ "name TEXT, age INTEGER, createdAt TEXT)" in
  sync mockSQLite [] User (Some true) st
  = (Throw (Error "No columns defined for model User. Use @Column decorators."),
     st)
  /\ issued (snd (sync mockSQLite userTables User (Some true) st))
     = [("DROP TABLE IF EXISTS users", []); (create, [])]
  /\ fst (sync mockSQLite userTables User (Some true) st) = Ok tt
  /\ issued (snd (sync mockSQLite userTables User None st))
     = [(create, [])]
  /\ fst (sync mockSQLite userTables User None st) = Ok tt.
Proof.
  intros st create.
  split.
  - exact (proj1 (sync_drop_then_create mockSQLite [] User (Some true) st)
             eq_refl).
  - pose proof (proj1 (proj2 (sync_drop_then_create mockSQLite userTables
                                User (Some true) st)) _ eq_refl)
      as Hforce.
    pose proof (proj1 (proj2 (sync_drop_then_create mockSQLite userTables
                                User None st)) _ eq_refl)
      as Hplain.
    assert (Hcols : forall (x : string * ColumnMetadata) l,
               (x :: l) <> []) by discriminate.
    destruct (Hforce (Hcols _ _)) as [_ [_ Hf]].
    destruct (Hplain (Hcols _ _)) as [_ [Hp _]].
    destruct (Hf eq_refl eq_refl (ex_intro _ (1%Z, 1%Z) eq_refl))
      as [Hf1 Hf2].
    destruct (Hp eq_refl eq_refl) as [Hp1 Hp2].
    split; [exact Hf1|].
    split; [exact (Hf2 (ex_intro _ (1%Z, 1%Z) eq_refl))|].
    split; [exact Hp1|].
    exact (Hp2 (ex_intro _ (1%Z, 1%Z) eq_refl)).
Defined.

Lemma findOne_is_findAll_limit_one_witness :
  let st := {| connected := true; issued := [] |} in
  let options :=
    Some {| where_ := Some [("email", JString "john@example.com")];
            limit := Some 5%Z; offset := None; order := None |} in
  issued (snd (findOne mockSQLite userTables User options st))
  = [("SELECT * FROM users WHERE email = ? LIMIT ?",
      [JString "john@example.com"; JNumber 1])]
  /\ fst (findOne mockSQLite userTables User options st) = Ok JNull.
Proof.
  intros st options.
  pose proof (findOne_is_findAll_limit_one mockSQLite userTables User
                options st) as [Heq [_ [_ Hissued]]].
  split.
  - exact (Hissued eq_refl eq_refl).
  - rewrite Heq. reflexivity.
Defined.

End QuickTest.

(* ================================================================== *)
(** ** Further properties of the statement builder *)
(* ================================================================== *)

Section BuilderEdges.
Import JS Types QueryBuilder Spec.

Lemma plain_typed (w : Object) :
  forallb plain (values w) = true -> wellTyped w = true.
Proof.
  induction w as [|[key value] w IH]; [reflexivity|].
  cbn [values map snd forallb wellTyped]. intro H.
  apply andb_true_iff in H. destruct H as [Hv Hw].
  apply andb_true_iff. split; [|now apply IH].
  unfold plain in Hv. apply andb_true_iff in Hv. destruct Hv as [_ Hop].
  unfold entryTyped. cbn [snd]. rewrite Hop. now rewrite orb_true_r.
Qed.

Lemma plain_conditions (w : Object) :
  forallb plain (values w) = true ->
  map condition w = map (fun entry => (fst entry ++ " = ?", [snd entry])) w.
Proof.
  induction w as [|[key value] w IH]; [reflexivity|].
  cbn [values map snd fst forallb]. intro H.
  apply andb_true_iff in H. destruct H as [Hv Hw].
  rewrite (IH Hw). f_equal.
  unfold plain in Hv. apply andb_true_iff in Hv. destruct Hv as [Hn Hop].
  unfold condition. apply negb_true_iff in Hn. apply negb_true_iff in Hop.
  now rewrite Hn, Hop.
Qed.

Lemma plain_where (w : Object) :
  forallb plain (values w) = true ->
  sqlOf " AND " (map condition w)
  = join " AND " (map (fun key => key ++ " = ?") (keys w))
  /\ paramsOf (map condition w) = values w.
Proof.
  intro H. rewrite (plain_conditions w H). unfold sqlOf, paramsOf, keys, values.
  rewrite !map_map. cbn [fst snd]. split; [reflexivity|].
  clear H. induction w as [|entry w IH]; [reflexivity|].
  cbn [map concat app]. now rewrite IH.
Qed.

(** X1. Where-values that are neither null nor operator sets never reach
    the SQL text: two where objects with the same keys give the same
    SELECT text, whatever their values, limits and offsets; the values are
    exactly the bound parameters, in key order, followed by limit and
    offset. *)
Theorem select_text_ignores_values (tableName : string) (w1 w2 : Object)
  (l1 l2 off1 off2 : Z) (ord : option (list (string * Direction))) :
  keys w1 = keys w2 ->
  forallb plain (values w1) = true ->
  forallb plain (values w2) = true ->
  exists sql,
    buildSelect tableName
      {| where_ := Some w1; limit := Some l1; offset := Some off1;
         order := ord |}
    = Ok (sql, (values w1 ++ [JNumber l1; JNumber off1])%list)
    /\ buildSelect tableName
         {| where_ := Some w2; limit := Some l2; offset := Some off2;
            order := ord |}
       = Ok (sql, (values w2 ++ [JNumber l2; JNumber off2])%list).
Proof.
  intros Hkeys H1 H2.
  rewrite !buildSelect_text by (cbn [where_ wellTypedOpt]; now apply plain_typed).
  cbn [where_ limit offset order whereParams numberParam].
  destruct (plain_where w1 H1) as [Hs1 Hp1].
  destruct (plain_where w2 H2) as [Hs2 Hp2].
  rewrite Hp1, Hp2.
  assert (Htext : whereText (Some w1) = whereText (Some w2)).
  { destruct w1 as [|e1 w1], w2 as [|e2 w2]; try discriminate Hkeys;
      [reflexivity|].
    cbn [whereText]. now rewrite Hs1, Hs2, Hkeys. }
  rewrite Htext. eexists. split; reflexivity.
Qed.

Lemma select_text_ignores_values_witness :
  exists sql,
    buildSelect "t"
      {| where_ := Some [("name", JString "x' OR '1'='1")];
         limit := Some 1%Z; offset := Some 0%Z; order := None |}
    = Ok (sql, [JString "x' OR '1'='1"; JNumber 1; JNumber 0])
    /\ buildSelect "t"
         {| where_ := Some [("name", JString "A")];
            limit := Some 2%Z; offset := Some 5%Z; order := None |}
       = Ok (sql, [JString "A"; JNumber 2; JNumber 5]).
Proof.
  exact (select_text_ignores_values "t"
           [("name", JString "x' OR '1'='1")] [("name", JString "A")]
           1%Z 2%Z 0%Z 5%Z None eq_refl eq_refl eq_refl).
Defined.

(** X2. A value that is not null and carries none of the seven [$] keys
    is compared for equality and bound as one parameter, also when it is
    an array or an object: an object whose keys lack the [$] prefix, such
    as [{gte: 10, lte: 20}], is not an operator set. *)
Theorem unprefixed_keys_are_equality (key : string) (v : JSValue)
  (ps : Params) :
  plain v = true ->
  buildWhereClause [(key, v)] ps = Ok (key ++ " = ?", (ps ++ [v])%list)
  /\ (forall xs, plain (JArray xs) = true)
  /\ (forall props,
         forallb (fun k => negb (defined (lookup k props))) operatorKeys
         = true ->
         plain (JObject props) = true)
  /\ buildWhereClause
       [("age", JObject [("gte", JNumber 10); ("lte", JNumber 20)])] []
     = Ok ("age = ?",
           [JObject [("gte", JNumber 10); ("lte", JNumber 20)]]).
Proof.
  intro Hv. split; [|split; [reflexivity|split; [|reflexivity]]].
  - rewrite buildWhereClause_conditions
      by (apply (plain_typed [(key, v)]); cbn; now rewrite Hv).
    destruct (plain_where [(key, v)]) as [Hs Hp];
      [cbn; now rewrite Hv|].
    now rewrite Hs, Hp.
  - intros props H. cbn [operatorKeys forallb] in H.
    repeat (apply andb_true_iff in H; destruct H as [?H H]).
    repeat match goal with
           | Hk : negb _ = true |- _ => apply negb_true_iff in Hk
           end.
    unfold plain, isOperator, getProp. cbn [nullish negb andb].
    now rewrite H0, H1, H2, H3, H4, H5, H6.
Qed.

Lemma unprefixed_keys_are_equality_witness :
  buildWhereClause [("tags", JArray [JNumber 1; JNumber 2])] []
  = Ok ("tags = ?", [JArray [JNumber 1; JNumber 2]])
  /\ plain (JObject [("min", JNumber 1); ("in", JArray [])]) = true.
Proof.
  pose proof (unprefixed_keys_are_equality "tags"
                (JArray [JNumber 1; JNumber 2]) [] eq_refl)
    as [Heq [_ [Hobj _]]].
  split; [exact Heq|].
  exact (Hobj [("min", JNumber 1); ("in", JArray [])] eq_refl).
Defined.

Lemma buildOperatorCondition_badIn (key : string) (v : JSValue)
  (ps : Params) :
  inIsArray v = false ->
  exists m, buildOperatorCondition key v ps = Throw (TypeError m).
Proof.
  unfold inIsArray, buildOperatorCondition, bind, push, ret, throw, append1.
  intro Hin.
  destruct (defined (getProp v "$gt"));
    destruct (defined (getProp v "$gte"));
    destruct (defined (getProp v "$lt"));
    destruct (defined (getProp v "$lte"));
    destruct (defined (getProp v "$ne"));
    destruct (defined (getProp v "$like"));
    destruct (getProp v "$in"); try discriminate Hin; eauto.
Qed.

Lemma whereEntries_badIn (w : Object) :
  existsb (fun entry => badIn (snd entry)) w = true ->
  forall (conditions : list string) (ps : Params),
  exists m, whereEntries w conditions ps = Throw (TypeError m).
Proof.
  induction w as [|[key value] w IH]; [discriminate|].
  cbn [existsb snd]. intros H conditions ps.
  cbn [whereEntries]. unfold bind at 1.
  destruct (badIn value) eqn:Hbad.
  - unfold badIn in Hbad.
    apply andb_true_iff in Hbad. destruct Hbad as [Hbad Hin].
    apply andb_true_iff in Hbad. destruct Hbad as [Hnull Hop].
    apply negb_true_iff in Hnull. apply negb_true_iff in Hin.
    rewrite Hnull, Hop. unfold bind.
    destruct (buildOperatorCondition_badIn key value ps Hin) as [m Hm].
    rewrite Hm. now exists m.
  - cbn [orb] in H.
    match goal with
    | |- context [match ?step ps with _ => _ end] =>
        destruct (step ps) as [[c ps']|e] eqn:Hstep
    end.
    + apply IH. exact H.
    + destruct (nullish value); [discriminate Hstep|].
      destruct (isOperator value).
      * unfold bind in Hstep.
        destruct (buildOperatorCondition key value ps) as [[c ps']|e']
          eqn:Hop; [discriminate Hstep|].
        inversion Hstep; subst.
        destruct (buildOperatorCondition_raises key value ps e Hop)
          as [m ->].
        now exists m.
      * discriminate Hstep.
Qed.

Lemma appendWhere_badIn (w : Object) (sql : string) (ps : Params) :
  existsb (fun entry => badIn (snd entry)) w = true ->
  exists m, appendWhere sql (Some w) ps = Throw (TypeError m).
Proof.
  intro Hbad. unfold appendWhere, buildWhereClause, bind.
  destruct (whereEntries_badIn w Hbad [] ps) as [m Hm].
  rewrite Hm. now exists m.
Qed.

(** X3. An operator set whose [$in] is present and is not an array
    ([null], a number, a string) makes every builder that receives it in
    its where object raise a type error instead of returning a statement,
    wherever in the where object it stands. *)
Theorem in_list_must_be_array (tableName : string) (w : Object) :
  existsb (fun entry => badIn (snd entry)) w = true ->
  (forall l off ord, exists m,
      buildSelect tableName
        {| where_ := Some w; limit := l; offset := off; order := ord |}
      = Throw (TypeError m))
  /\ (exists m,
         buildDelete tableName {| destroy_where := Some w |}
         = Throw (TypeError m))
  /\ (forall data, data <> [] -> exists m,
         buildUpdate tableName data {| update_where := Some w |}
         = Throw (TypeError m)).
Proof.
  intro Hbad.
  assert (Hwhere : forall sql ps, exists m,
             appendWhere sql (Some w) ps = Throw (TypeError m))
    by (intros sql ps; now apply appendWhere_badIn).
  split; [|split].
  - intros l off ord. unfold buildSelect. unfold bind at 1.
    cbn [where_].
    destruct (Hwhere ("SELECT * FROM " ++ tableName) []) as [m Hm].
    rewrite Hm. now exists m.
  - unfold buildDelete. cbn [destroy_where]. apply Hwhere.
  - intros data Hdata. unfold buildUpdate.
    destruct data as [|entry data]; [congruence|].
    cbn [keys map List.length Nat.eqb update_where]. apply Hwhere.
Qed.

Lemma in_list_must_be_array_witness :
  exists m,
    buildDelete "t"
      {| destroy_where :=
           Some [("name", JString "A");
                 ("id", JObject [("$gt", JNumber 1); ("$in", JNull)])] |}
    = Throw (TypeError m).
Proof.
  exact (proj1 (proj2 (in_list_must_be_array "t"
                         [("name", JString "A");
                          ("id", JObject [("$gt", JNumber 1);
                                          ("$in", JNull)])]
                         eq_refl))).
Defined.

Lemma lookup_Permutation (k : string) (o1 o2 : Object) :
  Permutation o1 o2 -> NoDup (keys o1) -> lookup k o1 = lookup k o2.
Proof.
  induction 1 as [|[k1 v1] l l' Hperm IH|[k1 v1] [k2 v2] l|l l' l'' H1 IH1 H2 IH2];
    intro Hnd.
  - reflexivity.
  - cbn [lookup]. destruct (String.eqb k k1); [reflexivity|].
    apply IH. cbn [keys map fst] in Hnd. now inversion Hnd.
  - cbn [lookup].
    destruct (String.eqb k k1) eqn:E1, (String.eqb k k2) eqn:E2;
      try reflexivity.
    apply String.eqb_eq in E1, E2. subst.
    cbn [keys map fst] in Hnd. inversion Hnd as [|? ? Hnot _]; subst.
    exfalso. apply Hnot. now left.
  - rewrite IH1 by exact Hnd. apply IH2.
    unfold keys in *. eapply Permutation_NoDup; [|exact Hnd].
    now apply Permutation_map.
Qed.

(** X4. The order in which an operator set lists its properties does
    not matter: an object with the same (distinct) properties as an
    operator set, in any order, is an operator set too and expands to the
    same fragments and parameters. *)
Theorem operator_key_order_irrelevant (key : string) (o1 o2 : Object)
  (ps : Params) :
  NoDup (keys o1) -> Permutation o1 o2 ->
  isOperator (JObject o1) = true ->
  isOperator (JObject o2) = true
  /\ buildWhereClause [(key, JObject o1)] ps
     = buildWhereClause [(key, JObject o2)] ps.
Proof.
  intros Hnd Hperm Hop1.
  assert (Hget : forall k, getProp (JObject o1) k = getProp (JObject o2) k)
    by (intro k; cbn [getProp]; now apply lookup_Permutation).
  assert (Hop : isOperator (JObject o1) = isOperator (JObject o2))
    by (unfold isOperator; now rewrite !Hget).
  rewrite Hop1 in Hop. symmetry in Hop.
  split; [exact Hop|].
  unfold buildWhereClause. cbn [whereEntries nullish]. rewrite Hop1, Hop.
  unfold buildOperatorCondition. now rewrite !Hget.
Qed.

Lemma operator_key_order_irrelevant_witness :
  buildWhereClause
    [("age", JObject [("$lte", JNumber 20); ("$gte", JNumber 10)])] []
  = buildWhereClause
      [("age", JObject [("$gte", JNumber 10); ("$lte", JNumber 20)])] [].
Proof.
  refine (proj2 (operator_key_order_irrelevant "age"
                   [("$lte", JNumber 20); ("$gte", JNumber 10)]
                   [("$gte", JNumber 10); ("$lte", JNumber 20)] [] _ _ _)).
  - repeat constructor; cbn; intuition discriminate.
  - apply perm_swap.
  - reflexivity.
Defined.

Lemma append_cancel_r (a b : string) (c : ascii) :
  a ++ String c "" = b ++ String c "" -> a = b.
Proof.
  revert b. induction a as [|x a IH]; intros [|y b] H; cbn [append] in H.
  - reflexivity.
  - inversion H as [[Hc Hrest]]. destruct b; discriminate Hrest.
  - inversion H as [[Hc Hrest]]. destruct a; discriminate Hrest.
  - inversion H; subst. f_equal. now apply IH.
Qed.

Lemma replaceQuotes_injective (s1 s2 : string) :
  replaceQuotes s1 = replaceQuotes s2 -> s1 = s2.
Proof.
  revert s2. induction s1 as [|c1 s1 IH]; intros [|c2 s2] H.
  - reflexivity.
  - cbn [replaceQuotes] in H. destruct (Ascii.eqb c2 "'"); discriminate H.
  - cbn [replaceQuotes] in H. destruct (Ascii.eqb c1 "'"); discriminate H.
  - cbn [replaceQuotes] in H.
    destruct (Ascii.eqb c1 "'") eqn:E1, (Ascii.eqb c2 "'") eqn:E2.
    + apply Ascii.eqb_eq in E1, E2. subst. inversion H. f_equal. now apply IH.
    + inversion H; subst. destruct s2 as [|c3 s2].
      * discriminate.
      * cbn [replaceQuotes] in *. now rewrite Ascii.eqb_refl in E2.
    + inversion H; subst. now rewrite Ascii.eqb_refl in E1.
    + inversion H; subst. f_equal. now apply IH.
Qed.

(** X5. The escaping of string defaults loses nothing: two different
    strings never get the same SQL literal; the literal of [s] has twice
    the single quotes of [s] between its delimiters and is longer than [s]
    by its number of quotes plus the two delimiters. *)
Theorem string_literal_injective (s1 s2 : string) :
  (formatValue (JString s1) = formatValue (JString s2) -> s1 = s2)
  /\ quotes (replaceQuotes s1) = 2 * quotes s1
  /\ String.length (formatValue (JString s1))
     = String.length s1 + quotes s1 + 2.
Proof.
  split; [|split].
  - cbn [formatValue append]. intro H. inversion H as [H'].
    apply append_cancel_r in H'. now apply replaceQuotes_injective.
  - induction s1 as [|c s IH]; [reflexivity|].
    cbn [replaceQuotes quotes]. destruct (Ascii.eqb c "'") eqn:E.
    + cbn [quotes]. rewrite IH. cbn. lia.
    + cbn [quotes]. rewrite E, IH. lia.
  - cbn [formatValue append String.length]. f_equal.
    induction s1 as [|c s IH]; [reflexivity|].
    cbn [replaceQuotes quotes]. destruct (Ascii.eqb c "'");
      cbn [append String.length] in *; rewrite IH; lia.
Qed.

Lemma string_literal_injective_witness : "it's" = "it's".
Proof.
  exact (proj1 (string_literal_injective "it's" "it's") eq_refl).
Defined.

End BuilderEdges.

(* ================================================================== *)
(** ** Further properties of the registry and the decorators *)
(* ================================================================== *)

Section RegistryEdges.
Import JS Types MetadataStorage Decorators Spec.

Lemma Map_get_set_other {V} (k k' : string) (v : V) (m : Map V) :
  k' <> k -> Map_get k' (Map_set k v m) = Map_get k' m.
Proof.
  intro Hne. induction m as [|[k0 v0] m IH]; cbn [Map_set Map_get].
  - now rewrite (proj2 (String.eqb_neq k' k) Hne).
  - destruct (String.eqb k k0) eqn:Hk; cbn [Map_get].
    + apply String.eqb_eq in Hk. subst k0.
      now rewrite (proj2 (String.eqb_neq k' k) Hne).
    + destruct (String.eqb k' k0); [reflexivity|exact IH].
Qed.





(** X6. The table name given to [registerTable] wins whatever the order
    of the declarations: registering the table before or after a column of
    the same model leaves the same registry. *)
Theorem registerTable_registerColumn_commute (className tableName : string)
  (propertyKey : string) (metadata : ColumnMetadata) (tables : Tables) :
  registerTable className tableName
    (registerColumn className propertyKey metadata tables)
  = registerColumn className propertyKey metadata
      (registerTable className tableName tables).
Proof.
  unfold registerTable, registerColumn, Map_has.
  destruct (Map_get className tables) as [existing|] eqn:Hget; cbn [negb].
  - rewrite Hget. rewrite !Map_get_set_same. cbn [negb columns].
    rewrite !Map_get_set_same. cbn [columns Types.tableName].
    now rewrite !Map_set_set.
  - rewrite !Map_get_set_same. cbn [negb columns Types.tableName].
    rewrite ?(Map_get_set_same className).
    cbn [negb columns Types.tableName].
    rewrite ?(Map_get_set_same className). cbn [columns Types.tableName].
    now rewrite !Map_set_set.
Qed.

(** X7. A registration touches one model and one property only: every
    other model keeps its descriptor, and the other properties of the
    model keep their column descriptors. *)
Theorem registration_frame (className other : string) (tableName : string)
  (propertyKey otherKey : string) (metadata : ColumnMetadata)
  (tables : Tables) :
  (other <> className ->
   getTableMetadata other
     (registerColumn className propertyKey metadata tables)
   = getTableMetadata other tables
   /\ getTableMetadata other (registerTable className tableName tables)
      = getTableMetadata other tables)
  /\ (otherKey <> propertyKey ->
      existingColumn className otherKey
        (registerColumn className propertyKey metadata tables)
      = existingColumn className otherKey tables
      /\ existingColumn className otherKey
           (registerTable className tableName tables)
         = existingColumn className otherKey tables).
Proof.
  split.
  - intro Hne. unfold getTableMetadata, registerColumn, registerTable, Map_has.
    destruct (Map_get className tables) as [existing|] eqn:Hget; cbn [negb].
    + rewrite Hget. now rewrite !Map_get_set_other.
    + rewrite Map_get_set_same. now rewrite !Map_get_set_other.
  - intro Hne. unfold existingColumn.
    rewrite registerColumn_lookup, registerTable_lookup.
    unfold getTableMetadata. cbn [columns].
    destruct (Map_get className tables) as [existing|].
    + rewrite Map_get_set_other by exact Hne. now split.
    + rewrite Map_get_set_other by exact Hne. now split.
Qed.

Lemma registration_frame_witness :
  getTableMetadata "Achat" (NotNull "User" "email" Model.userTables)
  = getTableMetadata "Achat" Model.userTables
  /\ existingColumn "User" "name" (NotNull "User" "email" Model.userTables)
     = existingColumn "User" "name" Model.userTables.
Proof.
  split.
  - refine (proj1 (proj1 (registration_frame "User" "Achat" "users" "email"
                            "name" _ Model.userTables) _)).
    discriminate.
  - refine (proj1 (proj2 (registration_frame "User" "Achat" "users" "email"
                            "name" _ Model.userTables) _)).
    discriminate.
Defined.





(** X10. What the declarations of a property amount to in the table
    definition: [@Column(t)] with [@NotNull] and [@Unique] stacked on it
    is rendered [<property> <t> NOT NULL UNIQUE], with [@Default(v)] on
    top of them [ DEFAULT <literal>] follows, and [@PrimaryKey(auto)] alone
    is rendered [<property> INTEGER PRIMARY KEY], [ AUTOINCREMENT] when
    [auto], then [ NOT NULL]. *)
Theorem stacked_declarations_render (className propName : string)
  (t : ColumnType) (tsType : option string) (tables : Tables) :
  let render (tables' : Tables) :=
    option_map
      (fun column =>
         QueryBuilder.columnDef (Model.toColumnDef (propName, column)))
      (existingColumn className propName tables') in
  let declared :=
    Unique className propName
      (NotNull className propName
         (Column (TypeArg t) tsType className propName tables)) in
  render declared
  = Some (propName ++ " " ++ columnTypeText t ++ " NOT NULL UNIQUE")
  /\ (forall v, defined v = true ->
         render (Default v className propName declared)
         = Some (propName ++ " " ++ columnTypeText t
                 ++ " NOT NULL UNIQUE DEFAULT " ++ QueryBuilder.formatValue v))
  /\ (forall auto : bool,
         render (PrimaryKey auto className propName tables)
         = Some (propName ++ " INTEGER PRIMARY KEY"
                 ++ (if auto then " AUTOINCREMENT" else "") ++ " NOT NULL")).
Proof.
  intros render declared. subst render declared.
  assert (Hcol :
    existingColumn className propName
      (Unique className propName
         (NotNull className propName
            (Column (TypeArg t) tsType className propName tables)))
    = Some {| name := propName; type := t; primaryKey := None;
              autoIncrement := None; nullable := Some false;
              unique := Some true; defaultValue := JUndefined |}).
  { unfold Unique. rewrite registerColumn_stores.
    unfold NotNull. rewrite registerColumn_stores.
    unfold Column. rewrite registerColumn_stores.
    now destruct tsType. }
  split; [|split].
  - rewrite Hcol. cbn [option_map Model.toColumnDef name].
    unfold QueryBuilder.columnDef. cbn.
    destruct (String.eqb propName ""); cbn;
      now rewrite !append_assoc.
  - intros v Hv. unfold Default at 1. rewrite registerColumn_stores.
    rewrite Hcol. cbn [option_map Model.toColumnDef orTextColumn name type
                         primaryKey autoIncrement nullable unique
                         defaultValue].
    unfold QueryBuilder.columnDef. cbn. rewrite Hv.
    destruct (String.eqb propName ""); cbn;
      now rewrite !append_assoc.
  - intro auto. unfold PrimaryKey. rewrite registerColumn_stores.
    cbn [option_map Model.toColumnDef name].
    unfold QueryBuilder.columnDef. cbn.
    destruct (String.eqb propName ""), auto; cbn;
      now rewrite ?append_assoc.
Qed.

Lemma stacked_declarations_render_witness :
  option_map
    (fun column =>
       QueryBuilder.columnDef (Model.toColumnDef ("stock", column)))
    (existingColumn "Product" "stock"
       (Default (JNumber 0) "Product" "stock"
          (Unique "Product" "stock"
             (NotNull "Product" "stock"
                (Column (TypeArg INTEGER) None "Product" "stock" [])))))
  = Some "stock INTEGER NOT NULL UNIQUE DEFAULT 0".
Proof.
  exact (proj1 (proj2 (stacked_declarations_render "Product" "stock"
                         INTEGER None []))
           (JNumber 0) eq_refl).
Defined.

End RegistryEdges.

(* ================================================================== *)
(** ** Further properties of the gateway *)
(* ================================================================== *)

Section GatewayEdges.
Import JS Types Database Spec.

Lemma reverse_app (a b : string) :
  reverse (a ++ b) = reverse b ++ reverse a.
Proof.
  induction a as [|x a IH]; cbn [append reverse].
  - now rewrite append_nil_r.
  - now rewrite IH, append_assoc.
Qed.

Lemma reverse_involutive (a : string) : reverse (reverse a) = a.
Proof.
  induction a as [|x a IH]; [reflexivity|].
  cbn [reverse]. now rewrite reverse_app, IH.
Qed.

Lemma noSpace_app (a b : string) :
  noSpace (a ++ b) = noSpace a && noSpace b.
Proof.
  induction a as [|x a IH]; [reflexivity|].
  cbn [append noSpace]. now rewrite IH, andb_assoc.
Qed.

Lemma noSpace_reverse (a : string) : noSpace (reverse a) = noSpace a.
Proof.
  induction a as [|x a IH]; [reflexivity|].
  cbn [reverse noSpace]. rewrite noSpace_app, IH. cbn [noSpace].
  rewrite andb_true_r. apply andb_comm.
Qed.

Lemma trimStart_allSpace (ws s : string) :
  allSpace ws = true -> trimStart (ws ++ s) = trimStart s.
Proof.
  induction ws as [|x ws IH]; [reflexivity|].
  cbn [allSpace append]. intro H. apply andb_true_iff in H.
  destruct H as [Hx Hws]. cbn [trimStart]. rewrite Hx. now apply IH.
Qed.

Lemma trimStart_noSpace (p s : string) :
  noSpace p = true -> p <> "" -> trimStart (p ++ s) = p ++ s.
Proof.
  destruct p as [|c p]; [congruence|]. cbn [noSpace append trimStart].
  intros H _. apply andb_true_iff in H. destruct H as [Hc _].
  apply negb_true_iff in Hc. now rewrite Hc.
Qed.

Lemma trimStart_keeps_suffix (a b : string) :
  noSpace b = true -> b <> "" -> exists u, trimStart (a ++ b) = u ++ b.
Proof.
  intros Hb Hne. induction a as [|x a IH].
  - exists "". cbn [append]. rewrite <- (append_nil_r b) at 1.
    rewrite trimStart_noSpace by assumption. now rewrite append_nil_r.
  - cbn [append trimStart]. destruct (isSpace x).
    + exact IH.
    + now exists (String x a).
Qed.

(** Trimming keeps a blank-free word that follows leading blanks. *)
Lemma trim_keeps_word (ws p s : string) :
  allSpace ws = true -> noSpace p = true -> p <> "" ->
  exists u, trim (ws ++ p ++ s) = p ++ u.
Proof.
  intros Hws Hp Hne. unfold trim.
  rewrite trimStart_allSpace by exact Hws.
  rewrite trimStart_noSpace by assumption.
  rewrite reverse_app.
  destruct (trimStart_keeps_suffix (reverse s) (reverse p)) as [u Hu].
  - now rewrite noSpace_reverse.
  - intro H. apply (f_equal reverse) in H.
    rewrite reverse_involutive in H. now apply Hne.
  - rewrite Hu, reverse_app, reverse_involutive. now exists (reverse u).
Qed.

Lemma upperChar_space (c : ascii) :
  isSpace c = true -> isSpace (upperChar c) = true.
Proof.
  destruct c as [[] [] [] [] [] [] [] []]; intro H;
    solve [reflexivity | discriminate H].
Qed.

Lemma noSpace_toUpperCase (p : string) :
  noSpace (toUpperCase p) = true -> noSpace p = true.
Proof.
  induction p as [|c p IH]; [reflexivity|].
  unfold toUpperCase in *. cbn [mapChars noSpace]. intro H.
  apply andb_true_iff in H. destruct H as [Hc Hp].
  apply andb_true_iff. split; [|now apply IH].
  apply negb_true_iff in Hc. apply negb_true_iff.
  destruct (isSpace c) eqn:E; [|reflexivity].
  now rewrite (upperChar_space c E) in Hc.
Qed.

Lemma toUpperCase_app (a b : string) :
  toUpperCase (a ++ b) = toUpperCase a ++ toUpperCase b.
Proof.
  unfold toUpperCase. induction a as [|x a IH]; [reflexivity|].
  cbn [append mapChars]. now rewrite IH.
Qed.

Lemma prefix_app (p x : string) : String.prefix p (p ++ x) = true.
Proof.
  induction p as [|c p IH]; [now destruct x|].
  cbn [append String.prefix].
  destruct (ascii_dec c c); [exact IH|congruence].
Qed.

Lemma select_dispatch (ws p rest : string) :
  allSpace ws = true -> toUpperCase p = "SELECT" ->
  startsWith (toUpperCase (trim (ws ++ p ++ rest))) "SELECT" = true.
Proof.
  intros Hws Hp.
  assert (Hns : noSpace p = true)
    by (apply noSpace_toUpperCase; now rewrite Hp).
  assert (Hne : p <> "") by (intros ->; discriminate Hp).
  destruct (trim_keeps_word ws p rest Hws Hns Hne) as [u Hu].
  rewrite Hu, toUpperCase_app, Hp. unfold startsWith. apply prefix_app.
Qed.




(** X12. The life cycle of the gateway.  Without handle, [execute] fails
    with the not-initialized error and the handle receives nothing.  A
    second [initialize] after a successful one does nothing: it does not
    open the database it names.  After a successful [close] every
    [execute] fails with the not-initialized error, and [close] on a
    closed gateway succeeds without effect. *)
Theorem gateway_life_cycle (engine : Engine)
  (openDatabaseAsync : string -> Result unit) (closeAsync : Result unit)
  (dbName dbName' sql : string) (params : list JSValue) (st : State) :
  (connected st = false ->
   execute engine sql params st = (Throw (Error notInitialized), st)
   /\ close closeAsync st = (Ok tt, st))
  /\ (fst (initialize openDatabaseAsync dbName st) = Ok tt ->
      connected (snd (initialize openDatabaseAsync dbName st)) = true
      /\ issued (snd (initialize openDatabaseAsync dbName st)) = issued st
      /\ initialize openDatabaseAsync dbName'
           (snd (initialize openDatabaseAsync dbName st))
         = (Ok tt, snd (initialize openDatabaseAsync dbName st)))
  /\ (fst (close closeAsync st) = Ok tt ->
      execute engine sql params (snd (close closeAsync st))
      = (Throw (Error notInitialized), snd (close closeAsync st))
      /\ issued (snd (close closeAsync st)) = issued st).
Proof.
  split; [|split].
  - intro Hconn. unfold execute, close. now rewrite Hconn.
  - unfold initialize. destruct (connected st) eqn:Hconn.
    + intros _. cbn [snd]. now rewrite Hconn.
    + destruct (openDatabaseAsync dbName); [|discriminate].
      intros _. cbn [snd connected issued]. now split.
  - unfold close, execute. destruct (connected st) eqn:Hconn.
    + destruct closeAsync; [|discriminate]. intros _. now split.
    + intros _. cbn [snd]. now rewrite Hconn.
Qed.

Lemma gateway_life_cycle_witness :
  let st := {| connected := false; issued := [] |} in
  let openOnly (name : string) :=
    if String.eqb name "test.db" then Ok tt
    else Throw (Error "cannot open") in
  let opened := snd (initialize openOnly "test.db" st) in
  execute mockSQLite "DELETE FROM users" [] st
  = (Throw (Error notInitialized), st)
  /\ initialize openOnly "other.db" opened = (Ok tt, opened)
  /\ execute mockSQLite "DELETE FROM users" [] (snd (close (Ok tt) opened))
     = (Throw (Error notInitialized), snd (close (Ok tt) opened)).
Proof.
  intros st openOnly opened.
  split; [|split].
  - exact (proj1 (proj1 (gateway_life_cycle mockSQLite openOnly
                           (Ok tt) "test.db" "other.db" "DELETE FROM users"
                           [] st) eq_refl)).
  - exact (proj2 (proj2 (proj1 (proj2 (gateway_life_cycle mockSQLite
                                         openOnly (Ok tt) "test.db"
                                         "other.db" "DELETE FROM users" []
                                         st)) eq_refl))).
  - exact (proj1 (proj2 (proj2 (gateway_life_cycle mockSQLite
                                  openOnly (Ok tt) "test.db"
                                  "other.db" "DELETE FROM users" [] opened))
                    eq_refl)).
Defined.

Lemma execAsync_state (exec : list Statement -> string -> Result unit)
  (sql : string) (st : State) :
  execAsync exec sql st
  = (exec (issued st) sql,
     {| connected := connected st;
        issued := (issued st ++ [(sql, [])])%list |}).
Proof. reflexivity. Qed.

(** X13. A transaction whose three steps succeed commits: the handle
    receives BEGIN TRANSACTION, then whatever the callback hands it, then
    COMMIT, and no ROLLBACK. *)
Theorem transaction_commits (exec : list Statement -> string -> Result unit)
  (callback : Db unit) (st st1 : State) :
  connected st = true ->
  exec (issued st) "BEGIN TRANSACTION" = Ok tt ->
  callback {| connected := connected st;
              issued := (issued st ++ [("BEGIN TRANSACTION", [])])%list |}
  = (Ok tt, st1) ->
  exec (issued st1) "COMMIT" = Ok tt ->
  transaction exec callback st
  = (Ok tt,
     {| connected := connected st1;
        issued := (issued st1 ++ [("COMMIT", [])])%list |}).
Proof.
  intros Hconn Hbegin Hcb Hcommit.
  unfold transaction, transactionBody, bind. rewrite Hconn. cbn [negb].
  rewrite execAsync_state, Hbegin, Hcb, execAsync_state, Hcommit.
  reflexivity.
Qed.

Lemma transaction_commits_witness :
  transaction (fun _ _ => Ok tt)
    (bind (execute mockSQLite "DELETE FROM achats" [])
       (fun _ => ret tt))
    {| connected := true; issued := [] |}
  = (Ok tt,
     {| connected := true;
        issued := [("BEGIN TRANSACTION", []); ("DELETE FROM achats", []);
                   ("COMMIT", [])] |}).
Proof.
  exact (transaction_commits (fun _ _ => Ok tt)
           (bind (execute mockSQLite "DELETE FROM achats" [])
              (fun _ => ret tt))
           {| connected := true; issued := [] |}
           {| connected := true;
              issued := [("BEGIN TRANSACTION", []);
                         ("DELETE FROM achats", [])] |}
           eq_refl eq_refl eq_refl eq_refl).
Defined.

(** X14. A transaction that fails rolls back and reports the failure.
    On a gateway without handle it fails with the not-initialized error
    and the handle receives nothing.  When BEGIN TRANSACTION, the callback
    or COMMIT raises, ROLLBACK is the last statement the handle receives
    (after a failed BEGIN the callback is not run, after a failed callback
    COMMIT is not sent), and the transaction raises the original error, or
    the error of ROLLBACK itself when that raises too. *)
Theorem transaction_rolls_back
  (exec : list Statement -> string -> Result unit) (callback : Db unit)
  (st : State) :
  let after (s : State) (sql : string) :=
    {| connected := connected s;
       issued := (issued s ++ [(sql, [])])%list |} in
  let rolledBack (error : Exception) (s : State) :=
    (match exec (issued s) "ROLLBACK" with
     | Ok _ => Throw error
     | Throw rollbackError => Throw rollbackError
     end, after s "ROLLBACK") in
  (connected st = false ->
   transaction exec callback st = (Throw (Error notInitialized), st))
  /\ (connected st = true ->
      (forall error,
          exec (issued st) "BEGIN TRANSACTION" = Throw error ->
          transaction exec callback st
          = rolledBack error (after st "BEGIN TRANSACTION"))
      /\ (forall error st1,
             exec (issued st) "BEGIN TRANSACTION" = Ok tt ->
             callback (after st "BEGIN TRANSACTION") = (Throw error, st1) ->
             transaction exec callback st = rolledBack error st1)
      /\ (forall error st1,
             exec (issued st) "BEGIN TRANSACTION" = Ok tt ->
             callback (after st "BEGIN TRANSACTION") = (Ok tt, st1) ->
             exec (issued st1) "COMMIT" = Throw error ->
             transaction exec callback st
             = rolledBack error (after st1 "COMMIT"))).
Proof.
  intros after rolledBack. subst after rolledBack. cbv beta.
  split.
  - intro Hconn. unfold transaction. now rewrite Hconn.
  - intro Hconn. unfold transaction, transactionBody, bind.
    destruct (negb (connected st)) eqn:E;
      [rewrite Hconn in E; discriminate E|].
    rewrite execAsync_state.
    split; [|split].
    + intros error Hbegin. rewrite Hbegin, execAsync_state.
      cbn [connected issued].
      now destruct (exec _ "ROLLBACK").
    + intros error st1 Hbegin Hcb.
      rewrite Hbegin, Hcb, execAsync_state.
      now destruct (exec _ "ROLLBACK").
    + intros error st1 Hbegin Hcb Hcommit.
      rewrite Hbegin, Hcb, execAsync_state, Hcommit, execAsync_state.
      cbn [connected issued].
      now destruct (exec _ "ROLLBACK").
Qed.

Lemma transaction_rolls_back_witness :
  transaction (fun _ _ => Ok tt)
    (bind (execute mockSQLite "DELETE FROM achats" [])
       (fun _ => throw (Error "abort")))
    {| connected := true; issued := [] |}
  = (Throw (Error "abort"),
     {| connected := true;
        issued := [("BEGIN TRANSACTION", []); ("DELETE FROM achats", []);
                   ("ROLLBACK", [])] |})
  /\ transaction (fun _ _ => Ok tt) (ret tt)
       {| connected := false; issued := [] |}
     = (Throw (Error notInitialized), {| connected := false; issued := [] |}).
Proof.
  split.
  - exact (proj1 (proj2 (proj2 (transaction_rolls_back (fun _ _ => Ok tt)
                                  (bind (execute mockSQLite
                                           "DELETE FROM achats" [])
                                     (fun _ => throw (Error "abort")))
                                  {| connected := true; issued := [] |})
                           eq_refl))
             (Error "abort")
             {| connected := true;
                issued := [("BEGIN TRANSACTION", []);
                           ("DELETE FROM achats", [])] |}
             eq_refl eq_refl).
  - exact (proj1 (transaction_rolls_back (fun _ _ => Ok tt) (ret tt)
                    {| connected := false; issued := [] |}) eq_refl).
Defined.

Lemma dropRows_names (engine : Engine) (names : list string) :
  (forall history sql, exists r, runAsync engine history sql [] = Ok r) ->
  forall st : State,
    connected st = true ->
    dropRows engine (map (fun n => JObject [("name", JString n)]) names) st
    = (Ok tt,
       {| connected := true;
          issued :=
            (issued st
             ++ map (fun n => (("DROP TABLE IF EXISTS " ++ n)%string, []))
                  names)%list |}).
Proof.
  intro Hruns. induction names as [|n names IH]; intros st Hconn.
  - cbn [map dropRows]. unfold ret. rewrite app_nil_r.
    destruct st as [c i]. cbn in Hconn |- *. now subst c.
  - cbn [map dropRows nullish]. unfold bind.
    change ("DROP TABLE IF EXISTS "
            ++ toString (getProp (JObject [("name", JString n)]) "name"))
      with (String "D" ("ROP TABLE IF EXISTS " ++ n)).
    rewrite execute_runAsync; [|exact Hconn|reflexivity|discriminate].
    destruct (Hruns (issued st) (String "D" ("ROP TABLE IF EXISTS " ++ n)))
      as [[id ch] Hrun].
    rewrite Hrun. rewrite IH by (cbn [connected]; exact Hconn).
    cbn [issued connected]. now rewrite <- app_assoc.
Qed.

(** X15. [dropAllTables] asks the catalogue for the table names and then
    drops exactly the tables it was told, in that order, one
    [DROP TABLE IF EXISTS] each, when the engine carries the statements
    out. *)
Theorem dropAllTables_drops_listed (engine : Engine) (names : list string)
  (st : State) :
  connected st = true ->
  getAllAsync engine (issued st) catalogQuery []
  = Ok (map (fun n => JObject [("name", JString n)]) names) ->
  (forall history sql, exists r, runAsync engine history sql [] = Ok r) ->
  dropAllTables engine st
  = (Ok tt,
     {| connected := true;
        issued :=
          (issued st
           ++ (catalogQuery, [])
              :: map (fun n => (("DROP TABLE IF EXISTS " ++ n)%string, []))
                   names)%list |}).
Proof.
  intros Hconn Hrows Hruns. unfold dropAllTables, bind.
  assert (Hselect :
    execute engine catalogQuery [] st
    = (Ok {| rows := map (fun n => JObject [("name", JString n)]) names;
             insertId := None; rowsAffected := None |},
       {| connected := true;
          issued := (issued st ++ [(catalogQuery, [])])%list |})).
  { unfold execute. rewrite Hconn. cbn [negb].
    assert (Hs : startsWith (toUpperCase (trim catalogQuery)) "SELECT" = true)
      by (vm_compute; reflexivity).
    now rewrite Hs, Hrows. }
  rewrite Hselect. cbn [rows].
  rewrite (dropRows_names engine names Hruns) by reflexivity.
  cbn [issued]. now rewrite <- app_assoc.
Qed.

Lemma dropAllTables_drops_listed_witness :
  let engine :=
    {| getAllAsync := fun _ _ _ =>
         Ok [JObject [("name", JString "users")];
             JObject [("name", JString "achats")]];
       runAsync := fun _ _ _ => Ok (0%Z, 0%Z) |} in
  issued (snd (dropAllTables engine {| connected := true; issued := [] |}))
  = [(catalogQuery, []); ("DROP TABLE IF EXISTS users", []);
     ("DROP TABLE IF EXISTS achats", [])].
Proof.
  intro engine.
  rewrite (dropAllTables_drops_listed engine ["users"; "achats"]
             {| connected := true; issued := [] |} eq_refl eq_refl
             (fun _ _ => ex_intro _ (0%Z, 0%Z) eq_refl)).
  reflexivity.
Defined.

End GatewayEdges.

(* ================================================================== *)
(** ** Further properties of the record accessor *)
(* ================================================================== *)

Section AccessorEdges.
Import JS Types MetadataStorage Database Model Spec.

Variable engine : Engine.
Variable tables : Tables.

Lemma execute_select (rest : string) (params : list JSValue) (st : State) :
  connected st = true ->
  execute engine ("SELECT" ++ rest) params st
  = (match getAllAsync engine (issued st) ("SELECT" ++ rest) params with
     | Ok result =>
         Ok {| rows := result; insertId := None; rowsAffected := None |}
     | Throw error => Throw error
     end, sent st ("SELECT" ++ rest) params).
Proof.
  intro Hconn. unfold execute, sent. rewrite Hconn. cbn [negb].
  pose proof (select_dispatch "" "SELECT" rest eq_refl eq_refl) as Hs.
  change ("" ++ "SELECT" ++ rest) with ("SELECT" ++ rest) in Hs.
  rewrite Hs.
  now destruct (getAllAsync engine (issued st) ("SELECT" ++ rest) params).
Qed.

Lemma execute_other (c : ascii) (rest : string) (params : list JSValue)
  (st : State) :
  connected st = true -> isSpace c = false -> upperChar c <> "S"%char ->
  execute engine (String c rest) params st
  = (match runAsync engine (issued st) (String c rest) params with
     | Ok (lastInsertRowId, changes) =>
         Ok {| rows := []; insertId := Some lastInsertRowId;
               rowsAffected := Some changes |}
     | Throw error => Throw error
     end, sent st (String c rest) params).
Proof.
  intros Hconn Hc Hs. rewrite execute_runAsync by assumption.
  unfold sent. now rewrite Hconn.
Qed.

Lemma execute_closed (sql : string) (params : list JSValue) (st : State) :
  connected st = false ->
  execute engine sql params st = (Throw (Error notInitialized), st).
Proof. intro Hconn. unfold execute. now rewrite Hconn. Qed.

Lemma findAll_sent (this : ModelClass) (options : option FindOptions)
  (st : State) :
  let o := match options with Some o => o | None => noOptions end in
  let sql :=
    "SELECT * FROM " ++ getTableName tables this ++ whereText (where_ o)
    ++ orderText (order o) ++ limitText (limit o)
    ++ offsetText (offset o) in
  let params :=
    (whereParams (where_ o) ++ numberParam (limit o)
     ++ numberParam (offset o))%list in
  connected st = true ->
  wellTypedOpt (where_ o) = true ->
  findAll engine tables this options st
  = (getAllAsync engine (issued st) sql params, sent st sql params).
Proof.
  intros o sql params Hconn Hw. unfold findAll. fold o.
  rewrite (buildSelect_text _ _ Hw). fold sql params.
  unfold built, Database.bind, Database.ret.
  change sql with ("SELECT" ++ (" * FROM " ++ getTableName tables this
                                ++ whereText (where_ o)
                                ++ orderText (order o)
                                ++ limitText (limit o)
                                ++ offsetText (offset o))).
  rewrite execute_select by exact Hconn.
  now destruct (getAllAsync engine (issued st) _ params).
Qed.

(** X16. [findAll] hands the gateway exactly the statement [buildSelect]
    builds for the model's table and returns the rows [getAllAsync]
    answers, unchanged and in order; an error of the engine is raised
    unchanged. *)
Theorem findAll_returns_rows (this : ModelClass)
  (options : option FindOptions) (st : State) :
  let o := match options with Some o => o | None => noOptions end in
  let sql :=
    "SELECT * FROM " ++ getTableName tables this ++ whereText (where_ o)
    ++ orderText (order o) ++ limitText (limit o)
    ++ offsetText (offset o) in
  let params :=
    (whereParams (where_ o) ++ numberParam (limit o)
     ++ numberParam (offset o))%list in
  connected st = true ->
  wellTypedOpt (where_ o) = true ->
  findAll engine tables this options st
  = (getAllAsync engine (issued st) sql params, sent st sql params).
Proof. exact (findAll_sent this options st). Qed.

(** X17. [findByPk] with a number or string identifier (any value that
    is neither null nor an operator set) asks for
    [SELECT * FROM <table> WHERE id = ? LIMIT ?] bound to the identifier
    and 1, and returns the first row of the answer, or null when there is
    none. *)
Theorem findByPk_statement (this : ModelClass) (id : JSValue) (st : State) :
  let sql :=
    "SELECT * FROM " ++ getTableName tables this ++ " WHERE id = ? LIMIT ?" in
  connected st = true ->
  plain id = true ->
  findByPk engine tables this id st
  = (match getAllAsync engine (issued st) sql [id; JNumber 1] with
     | Ok rows => Ok (firstOrNull rows)
     | Throw e => Throw e
     end, sent st sql [id; JNumber 1]).
Proof.
  intros sql Hconn Hid. unfold findByPk, findOne.
  unfold Database.bind at 1. cbv zeta.
  cbn [withLimitOne where_ limit offset order].
  assert (Hplain : forallb plain (values [("id", id)]) = true)
    by (cbn; now rewrite Hid).
  pose proof (findAll_sent this
                (Some (withLimitOne
                         (Some {| where_ := Some [("id", id)];
                                  limit := None; offset := None;
                                  order := None |}))) st Hconn
                (plain_typed _ Hplain)) as Hall.
  cbv zeta in Hall.
  cbn [withLimitOne where_ limit offset order whereText whereParams
         orderText limitText offsetText numberParam] in Hall.
  destruct (plain_where _ Hplain) as [Hs Hp].
  rewrite Hs, Hp in Hall. cbn in Hall.
  rewrite Hall. subst sql. cbn.
  destruct (getAllAsync engine (issued st) _ [id; JNumber 1]) as [rows|e];
    [|reflexivity].
  now destruct rows.
Qed.

Lemma lookup_Map_set (k k' : string) (v : JSValue) (o : Object) :
  lookup k (Map_set k' v o) = if String.eqb k k' then v else lookup k o.
Proof.
  induction o as [|[k0 v0] o IH]; cbn [Map_set lookup].
  - reflexivity.
  - destruct (String.eqb k' k0) eqn:E0; cbn [lookup].
    + apply String.eqb_eq in E0. subst k0.
      now destruct (String.eqb k k').
    + rewrite IH. destruct (String.eqb k k0) eqn:E1; [|reflexivity].
      apply String.eqb_eq in E1. subst k0.
      destruct (String.eqb k k') eqn:E2; [|reflexivity].
      apply String.eqb_eq in E2. subst k'.
      now rewrite String.eqb_refl in E0.
Qed.

(** X18. [create] hands the gateway the INSERT statement of the record,
    bound to its values in key order, also for a record without keys (the
    builder has no guard there), and returns the record with [id] set to
    the row id the engine reports: every other field is as it was given,
    and an [id] given in the record is replaced. *)
Theorem create_returns_inserted_id (this : ModelClass) (data : Object)
  (st : State) :
  let sql :=
    "INSERT INTO " ++ getTableName tables this ++ " ("
    ++ join ", " (keys data) ++ ") VALUES ("
    ++ join ", " (repeat "?" (List.length data)) ++ ")" in
  connected st = true ->
  create engine tables this data st
  = (match runAsync engine (issued st) sql (values data) with
     | Ok (lastInsertRowId, _) =>
         Ok (Map_set "id" (JNumber lastInsertRowId) data)
     | Throw e => Throw e
     end, sent st sql (values data))
  /\ (forall (lastInsertRowId : Z) (key : string),
         lookup key (Map_set "id" (JNumber lastInsertRowId) data)
         = if String.eqb key "id" then JNumber lastInsertRowId
           else lookup key data).
Proof.
  intros sql Hconn. split; [|intros; apply lookup_Map_set].
  unfold create, QueryBuilder.buildInsert, built, Database.bind,
    Database.ret.
  rewrite map_placeholder. unfold keys at 2. rewrite length_map.
  fold sql.
  change sql with (String "I" ("NSERT INTO " ++ getTableName tables this
                               ++ " (" ++ join ", " (keys data)
                               ++ ") VALUES ("
                               ++ join ", " (repeat "?" (List.length data))
                               ++ ")")).
  rewrite execute_other; [|exact Hconn|reflexivity|discriminate].
  now destruct (runAsync engine (issued st) _ (values data)) as [[id ch]|e].
Qed.

(** X19. [update] and [destroy] return the number of changed rows the
    engine reports for the one statement they hand over, the UPDATE or
    DELETE the builder made for the model's table. *)
Theorem update_destroy_return_changes (this : ModelClass) (st : State) :
  connected st = true ->
  (forall (data : Object) (options : UpdateOptions),
      data <> [] ->
      wellTypedOpt (update_where options) = true ->
      let sql :=
        "UPDATE " ++ getTableName tables this ++ " SET " ++ setText data
        ++ whereText (update_where options) in
      let params :=
        (values data ++ whereParams (update_where options))%list in
      update engine tables this data options st
      = (match runAsync engine (issued st) sql params with
         | Ok (_, changes) => Ok changes
         | Throw e => Throw e
         end, sent st sql params))
  /\ (forall options : DestroyOptions,
         wellTypedOpt (destroy_where options) = true ->
         let sql :=
           "DELETE FROM " ++ getTableName tables this
           ++ whereText (destroy_where options) in
         let params := whereParams (destroy_where options) in
         destroy engine tables this options st
         = (match runAsync engine (issued st) sql params with
            | Ok (_, changes) => Ok changes
            | Throw e => Throw e
            end, sent st sql params)).
Proof.
  intro Hconn. split.
  - intros data options Hdata Hw sql params. unfold update.
    rewrite (buildUpdate_text _ _ _ Hdata Hw). fold sql params.
    unfold built, Database.bind, Database.ret.
    change sql with (String "U" ("PDATE " ++ getTableName tables this
                                 ++ " SET " ++ setText data
                                 ++ whereText (update_where options))).
    rewrite execute_other; [|exact Hconn|reflexivity|discriminate].
    now destruct (runAsync engine (issued st) _ params) as [[id ch]|e].
  - intros options Hw sql params. unfold destroy.
    rewrite (buildDelete_text _ _ Hw). fold sql params.
    unfold built, Database.bind, Database.ret.
    change sql with (String "D" ("ELETE FROM " ++ getTableName tables this
                                 ++ whereText (destroy_where options))).
    rewrite execute_other; [|exact Hconn|reflexivity|discriminate].
    now destruct (runAsync engine (issued st) _ params) as [[id ch]|e].
Qed.

(** X20. [destroy] without a where object, or with an empty one, deletes
    without condition: it hands the gateway the very statement [truncate]
    does, [DELETE FROM <table>] with no parameter. *)
Theorem destroy_without_where_is_truncate (this : ModelClass) (st : State) :
  connected st = true ->
  let unconditional := ("DELETE FROM " ++ getTableName tables this, []) in
  issued (snd (truncate engine tables this st))
  = (issued st ++ [unconditional])%list
  /\ issued (snd (destroy engine tables this {| destroy_where := None |} st))
     = (issued st ++ [unconditional])%list
  /\ issued (snd (destroy engine tables this
                    {| destroy_where := Some [] |} st))
     = (issued st ++ [unconditional])%list.
Proof.
  intros Hconn unconditional. subst unconditional.
  pose proof (fun sql => proj1 (execute_issued engine sql [] st)) as Hiss.
  rewrite Hconn in Hiss.
  split; [|split].
  - unfold truncate, Database.bind.
    specialize (Hiss ("DELETE FROM " ++ getTableName tables this)).
    now destruct (execute engine _ [] st) as [[r|e] st'].
  - unfold destroy, QueryBuilder.buildDelete, built, Database.bind.
    cbn [destroy_where QueryBuilder.appendWhere QueryBuilder.ret
           Database.ret].
    specialize (Hiss ("DELETE FROM " ++ getTableName tables this)).
    now destruct (execute engine _ [] st) as [[r|e] st'].
  - unfold destroy, QueryBuilder.buildDelete, built, Database.bind.
    cbn -[execute append].
    specialize (Hiss ("DELETE FROM " ++ getTableName tables this)).
    now destruct (execute engine _ [] st) as [[r|e] st'].
Qed.

(** X21. [count] asks for the row count of the table (a SELECT of
    COUNT, aliased [count], FROM <table>) with
    the WHERE clause of the descriptor and nothing else of it: limit,
    offset and order are ignored.  It returns the [count] field of the
    first row, and 0 when there is no row or that field is absent, null
    or zero. *)
Theorem count_ignores_pagination (this : ModelClass)
  (options : option FindOptions) (st : State) :
  let w := match options with Some o => where_ o | None => None end in
  let sql :=
    "SELECT COUNT(*) as count FROM " ++ getTableName tables this
    ++ whereText w in
  connected st = true ->
  wellTypedOpt w = true ->
  count engine tables this options st
  = (match getAllAsync engine (issued st) sql (whereParams w) with
     | Ok rows =>
         Ok (if truthyValue (firstCount rows) then firstCount rows
             else JNumber 0)
     | Throw e => Throw e
     end, sent st sql (whereParams w))
  /\ firstCount [] = JUndefined
  /\ (forall n rest,
         firstCount (JObject [("count", JNumber n)] :: rest) = JNumber n)
  /\ truthyValue JUndefined = false
  /\ truthyValue JNull = false
  /\ (forall n, truthyValue (JNumber n) = negb (n =? 0)%Z).
Proof.
  intros w sql Hconn Hw.
  split; [|repeat split].
  unfold count. fold w.
  rewrite (appendWhere_text _ _ _ Hw). cbn [app].
  rewrite append_assoc. fold sql.
  unfold built, Database.bind, Database.ret.
  change sql with ("SELECT" ++ (" COUNT(*) as count FROM "
                                ++ getTableName tables this
                                ++ whereText w)).
  rewrite execute_select by exact Hconn.
  now destruct (getAllAsync engine (issued st) _ (whereParams w)).
Qed.

(** X22. Which table a model reads and writes.  A descriptor in the
    registry decides, whatever the class's static [tableName] says: after
    [registerTable] the name is the registered one, and after column
    registrations alone it is the class name in lower case.  Without
    descriptor the static [tableName] is used when it is set and not
    empty, else the class name in lower case. *)
Theorem getTableName_resolution (this : ModelClass) :
  (forall tableName,
      getTableName (registerTable (className this) tableName tables) this
      = tableName)
  /\ (forall propertyKey metadata,
         getTableMetadata (className this) tables = None ->
         getTableName
           (registerColumn (className this) propertyKey metadata tables) this
         = toLowerCase (className this))
  /\ (getTableMetadata (className this) tables = None ->
      getTableName tables this
      = match staticTableName this with
        | Some t => if String.eqb t "" then toLowerCase (className this)
                    else t
        | None => toLowerCase (className this)
        end).
Proof.
  split; [|split].
  - intro tableName. unfold getTableName.
    now rewrite registerTable_lookup.
  - intros propertyKey metadata Hnone. unfold getTableName.
    rewrite registerColumn_lookup. now rewrite Hnone.
  - intro Hnone. unfold getTableName. now rewrite Hnone.
Qed.

(** X23. Before the gateway is initialized every accessor operation whose
    statement the builder can build fails with the not-initialized error,
    and the handle receives nothing. *)
Theorem accessor_needs_initialized_gateway (this : ModelClass) (st : State) :
  connected st = false ->
  let failed {A} : Result A * State := (Throw (Error notInitialized), st) in
  (forall options,
      wellTypedOpt
        (where_ (match options with Some o => o | None => noOptions end))
      = true ->
      findAll engine tables this options st = failed
      /\ findOne engine tables this options st = failed
      /\ count engine tables this options st = failed)
  /\ (forall data, create engine tables this data st = failed)
  /\ (forall data options,
         data <> [] -> wellTypedOpt (update_where options) = true ->
         update engine tables this data options st = failed)
  /\ (forall options,
         wellTypedOpt (destroy_where options) = true ->
         destroy engine tables this options st = failed)
  /\ drop engine tables this st = failed
  /\ truncate engine tables this st = failed
  /\ (forall force,
         noSchema (getTableMetadata (className this) tables) = false ->
         sync engine tables this force st = failed).
Proof.
  intros Hconn failed. subst failed.
  assert (Hall : forall options,
             wellTypedOpt
               (where_ (match options with
                        | Some o => o | None => noOptions end)) = true ->
             findAll engine tables this options st
             = (Throw (Error notInitialized), st)).
  { intros options Hw. unfold findAll.
    rewrite (buildSelect_text _ _ Hw).
    unfold built, Database.bind, Database.ret.
    now rewrite execute_closed. }
  split; [|split; [|split; [|split; [|split; [|split]]]]].
  - intros options Hw. split; [now apply Hall|split].
    + unfold findOne, Database.bind. rewrite Hall; [reflexivity|].
      rewrite withLimitOne_limitOne. destruct options; exact Hw.
    + unfold count.
      assert (Hw' : wellTypedOpt
                      (match options with
                       | Some o => where_ o | None => None end) = true)
        by (destruct options; exact Hw).
      rewrite (appendWhere_text _ _ _ Hw').
      unfold built, Database.bind, Database.ret.
      now rewrite execute_closed.
  - intro data. unfold create, QueryBuilder.buildInsert, built,
      Database.bind, Database.ret.
    now rewrite execute_closed.
  - intros data options Hdata Hw. unfold update.
    rewrite (buildUpdate_text _ _ _ Hdata Hw).
    unfold built, Database.bind, Database.ret.
    now rewrite execute_closed.
  - intros options Hw. unfold destroy.
    rewrite (buildDelete_text _ _ Hw).
    unfold built, Database.bind, Database.ret.
    now rewrite execute_closed.
  - unfold drop, Database.bind. now rewrite execute_closed.
  - unfold truncate, Database.bind. now rewrite execute_closed.
  - intros force Hschema. unfold noSchema in Hschema.
    destruct (getTableMetadata (className this) tables) as [m|] eqn:Hm;
      [|discriminate].
    rewrite (sync_with_columns engine tables this force m st Hm)
      by (destruct (columns m); [discriminate|discriminate]).
    cbv zeta. rewrite !execute_closed by exact Hconn.
    now destruct (QueryBuilder.truthy force).
Qed.

(** X24. When the builder raises on the where object (an operator set
    whose [$in] is not an array), the accessor raises that type error and
    the handle receives nothing, connected or not. *)
Theorem builder_error_sends_nothing (this : ModelClass) (w : Object)
  (st : State) :
  existsb (fun entry => badIn (snd entry)) w = true ->
  (forall l off ord, exists m,
      findAll engine tables this
        (Some {| where_ := Some w; limit := l; offset := off;
                 order := ord |}) st
      = (Throw (TypeError m), st))
  /\ (exists m,
         destroy engine tables this {| destroy_where := Some w |} st
         = (Throw (TypeError m), st))
  /\ (forall data, data <> [] -> exists m,
         update engine tables this data {| update_where := Some w |} st
         = (Throw (TypeError m), st)).
Proof.
  intro Hbad. split; [|split].
  - intros l off ord. unfold findAll, QueryBuilder.buildSelect.
    unfold QueryBuilder.bind at 1. cbn [where_].
    destruct (appendWhere_badIn w ("SELECT * FROM " ++ getTableName tables this)
                [] Hbad) as [m Hm].
    rewrite Hm. now exists m.
  - unfold destroy, QueryBuilder.buildDelete. cbn [destroy_where].
    destruct (appendWhere_badIn w ("DELETE FROM " ++ getTableName tables this)
                [] Hbad) as [m Hm].
    rewrite Hm. now exists m.
  - intros data Hdata. unfold update, QueryBuilder.buildUpdate.
    destruct data as [|entry data]; [congruence|].
    cbn [keys map List.length Nat.eqb update_where].
    match goal with
    | |- context [QueryBuilder.appendWhere ?sql (Some w) ?ps] =>
        destruct (appendWhere_badIn w sql ps Hbad) as [m Hm]
    end.
    rewrite Hm. now exists m.
Qed.

End AccessorEdges.

(* ================================================================== *)
(** ** The accessor on the quick test script's model *)
(* ================================================================== *)

Section AccessorRuns.
Import JS Types MetadataStorage Database Model Spec.

Lemma findAll_returns_rows_witness :
  let engine :=
    {| getAllAsync := fun _ _ _ =>
         Ok [JObject [("id", JNumber 7); ("name", JString "John")]];
       runAsync := fun _ _ _ => Ok (1%Z, 1%Z) |} in
  findAll engine userTables User
    (Some {| where_ := Some [("age", JObject [("$lt", JNumber 35)])];
             limit := None; offset := None; order := None |})
    {| connected := true; issued := [] |}
  = (Ok [JObject [("id", JNumber 7); ("name", JString "John")]],
     {| connected := true;
        issued := [("SELECT * FROM users WHERE age < ?", [JNumber 35])] |}).
Proof.
  intro engine.
  exact (findAll_returns_rows engine userTables User
           (Some {| where_ := Some [("age", JObject [("$lt", JNumber 35)])];
                    limit := None; offset := None; order := None |})
           {| connected := true; issued := [] |} eq_refl eq_refl).
Defined.

Lemma findByPk_statement_witness :
  let engine :=
    {| getAllAsync := fun _ _ _ =>
         Ok [JObject [("id", JNumber 7); ("name", JString "John")]];
       runAsync := fun _ _ _ => Ok (1%Z, 1%Z) |} in
  findByPk engine userTables User (JNumber 7)
    {| connected := true; issued := [] |}
  = (Ok (JObject [("id", JNumber 7); ("name", JString "John")]),
     {| connected := true;
        issued := [("SELECT * FROM users WHERE id = ? LIMIT ?",
                    [JNumber 7; JNumber 1])] |}).
Proof.
  intro engine.
  exact (findByPk_statement engine userTables User (JNumber 7)
           {| connected := true; issued := [] |} eq_refl eq_refl).
Defined.

Lemma create_returns_inserted_id_witness :
  create mockSQLite userTables User
    [("email", JString "john@example.com"); ("name", JString "John Doe")]
    {| connected := true; issued := [] |}
  = (Ok [("email", JString "john@example.com");
         ("name", JString "John Doe"); ("id", JNumber 1)],
     {| connected := true;
        issued := [("INSERT INTO users (email, name) VALUES (?, ?)",
                    [JString "john@example.com"; JString "John Doe"])] |}).
Proof.
  exact (proj1 (create_returns_inserted_id mockSQLite userTables User
                  [("email", JString "john@example.com");
                   ("name", JString "John Doe")]
                  {| connected := true; issued := [] |} eq_refl)).
Defined.

Lemma update_destroy_return_changes_witness :
  update mockSQLite userTables User [("age", JNumber 31)]
    {| update_where := Some [("id", JNumber 1)] |}
    {| connected := true; issued := [] |}
  = (Ok 1%Z,
     {| connected := true;
        issued := [("UPDATE users SET age = ? WHERE id = ?",
                    [JNumber 31; JNumber 1])] |})
  /\ destroy mockSQLite userTables User
       {| destroy_where := Some [("id", JNumber 1)] |}
       {| connected := true; issued := [] |}
     = (Ok 1%Z,
        {| connected := true;
           issued := [("DELETE FROM users WHERE id = ?", [JNumber 1])] |}).
Proof.
  pose proof (update_destroy_return_changes mockSQLite userTables User
                {| connected := true; issued := [] |} eq_refl) as [Hu Hd].
  split.
  - refine (Hu [("age", JNumber 31)]
              {| update_where := Some [("id", JNumber 1)] |} _ eq_refl).
    discriminate.
  - exact (Hd {| destroy_where := Some [("id", JNumber 1)] |} eq_refl).
Defined.

Lemma destroy_without_where_is_truncate_witness :
  issued (snd (destroy mockSQLite userTables User
                 {| destroy_where := Some [] |}
                 {| connected := true; issued := [] |}))
  = [("DELETE FROM users", [])].
Proof.
  exact (proj2 (proj2 (destroy_without_where_is_truncate mockSQLite
                         userTables User
                         {| connected := true; issued := [] |} eq_refl))).
Defined.

Lemma count_ignores_pagination_witness :
  let engine :=
    {| getAllAsync := fun _ _ _ => Ok [JObject [("count", JNumber 3)]];
       runAsync := fun _ _ _ => Ok (1%Z, 1%Z) |} in
  count engine userTables User
    (Some {| where_ := Some [("age", JObject [("$gte", JNumber 18)])];
             limit := Some 10%Z; offset := Some 20%Z;
             order := Some [("name", ASC)] |})
    {| connected := true; issued := [] |}
  = (Ok (JNumber 3),
     {| connected := true;
        issued := [("SELECT COUNT(*) as count FROM users WHERE age >= ?",
                    [JNumber 18])] |}).
Proof.
  intro engine.
  exact (proj1 (count_ignores_pagination engine userTables User
                  (Some {| where_ :=
                             Some [("age", JObject [("$gte", JNumber 18)])];
                           limit := Some 10%Z; offset := Some 20%Z;
                           order := Some [("name", ASC)] |})
                  {| connected := true; issued := [] |} eq_refl eq_refl)).
Defined.

Lemma getTableName_resolution_witness :
  let Person := {| className := "Person"; staticTableName := Some "people" |} in
  getTableName [] Person = "people"
  /\ getTableName
       (Decorators.Column (Decorators.TypeArg TEXT) None "Person" "name" [])
       Person
     = "person".
Proof.
  intro Person.
  pose proof (getTableName_resolution [] Person) as [_ [Hcol Hnone]].
  split.
  - exact (Hnone eq_refl).
  - exact (Hcol "name" _ eq_refl).
Defined.

Lemma accessor_needs_initialized_gateway_witness :
  let st := {| connected := false; issued := [] |} in
  findAll mockSQLite userTables User None st
  = (Throw (Error notInitialized), st)
  /\ create mockSQLite userTables User [("name", JString "A")] st
     = (Throw (Error notInitialized), st)
  /\ update mockSQLite userTables User [("age", JNumber 31)]
       {| update_where := None |} st
     = (Throw (Error notInitialized), st)
  /\ destroy mockSQLite userTables User {| destroy_where := None |} st
     = (Throw (Error notInitialized), st)
  /\ sync mockSQLite userTables User (Some true) st
     = (Throw (Error notInitialized), st).
Proof.
  intro st.
  pose proof (accessor_needs_initialized_gateway mockSQLite userTables User
                st eq_refl) as [Hfind [Hcreate [Hupdate [Hdestroy
                                                          [_ [_ Hsync]]]]]].
  split; [exact (proj1 (Hfind None eq_refl))|].
  split; [exact (Hcreate [("name", JString "A")])|].
  split.
  - refine (Hupdate [("age", JNumber 31)] {| update_where := None |} _
              eq_refl).
    discriminate.
  - split.
    + exact (Hdestroy {| destroy_where := None |} eq_refl).
    + exact (Hsync (Some true) eq_refl).
Defined.

Lemma builder_error_sends_nothing_witness :
  let st := {| connected := true; issued := [] |} in
  exists m,
    destroy mockSQLite userTables User
      {| destroy_where := Some [("id", JObject [("$in", JNumber 7)])] |} st
    = (Throw (TypeError m), st).
Proof.
  intro st.
  exact (proj1 (proj2 (builder_error_sends_nothing mockSQLite userTables User
                         [("id", JObject [("$in", JNumber 7)])] st
                         eq_refl))).
Defined.

End AccessorRuns.

(* ================================================================== *)
(** ** Null values and repeated synchronisation *)
(* ================================================================== *)

Section NullAndSync.
Import JS Types MetadataStorage Database Model Spec.

(** X25. Null is written but not compared: in the SET list every key of
    the partial record gets [key = ?] bound to its value, [null] and
    [undefined] included, whereas in the WHERE clause a [null] or
    [undefined] value binds nothing and reads [key IS NULL]. *)
Theorem null_is_bound_in_set_not_in_where (tableName key column : string)
  (value condition : JSValue) :
  nullish condition = true ->
  QueryBuilder.buildUpdate tableName [(key, value)]
    {| update_where := Some [(column, condition)] |}
  = Ok ("UPDATE " ++ tableName ++ " SET " ++ key ++ " = ? WHERE " ++ column
        ++ " IS NULL", [value])
  /\ QueryBuilder.buildDelete tableName
       {| destroy_where := Some [(column, condition)] |}
     = Ok ("DELETE FROM " ++ tableName ++ " WHERE " ++ column ++ " IS NULL",
           []).
Proof.
  intro Hnull.
  assert (Hw : wellTypedOpt (Some [(column, condition)]) = true).
  { cbn [wellTypedOpt wellTyped forallb]. unfold entryTyped. cbn [snd].
    now rewrite Hnull. }
  split.
  - rewrite buildUpdate_text; [|discriminate|exact Hw].
    cbn [update_where whereText whereParams map Spec.condition].
    unfold sqlOf, paramsOf, setText. rewrite Hnull. cbn.
    now rewrite !append_assoc.
  - rewrite buildDelete_text by exact Hw.
    cbn [destroy_where whereText whereParams map Spec.condition].
    unfold sqlOf, paramsOf. rewrite Hnull. cbn.
    now rewrite ?append_assoc.
Qed.

Lemma null_is_bound_in_set_not_in_where_witness :
  QueryBuilder.buildUpdate "users" [("nick", JNull)]
    {| update_where := Some [("deletedAt", JNull)] |}
  = Ok ("UPDATE users SET nick = ? WHERE deletedAt IS NULL", [JNull]).
Proof.
  exact (proj1 (null_is_bound_in_set_not_in_where "users" "nick" "deletedAt"
                  JNull JNull eq_refl)).
Defined.

(** X26. Synchronising twice without [force] is harmless: on a connected
    gateway whose engine carries the statement out, the handle receives
    the same [CREATE TABLE IF NOT EXISTS] statement twice and nothing else,
    in particular no drop, and both calls succeed. *)
Theorem sync_twice_creates_twice (engine : Engine) (tables : Tables)
  (this : ModelClass) (metadata : TableMetadata) (st : State) :
  getTableMetadata (className this) tables = Some metadata ->
  columns metadata <> [] ->
  connected st = true ->
  (forall history sql, exists r, runAsync engine history sql [] = Ok r) ->
  let create :=
    (QueryBuilder.buildCreateTable (tableName metadata)
       (map toColumnDef (columns metadata)), @nil JSValue) in
  let once := sync engine tables this None st in
  let twice := sync engine tables this None (snd once) in
  fst once = Ok tt
  /\ fst twice = Ok tt
  /\ issued (snd twice) = (issued st ++ [create; create])%list.
Proof.
  intros Hmeta Hcols Hconn Hruns create once twice.
  assert (Hsync : forall s, connected s = true ->
            sync engine tables this None s
            = (Ok tt, sent s (fst create) [])).
  { intros s Hs.
    rewrite (sync_with_columns engine tables this None metadata s Hmeta Hcols).
    cbv zeta. cbn [QueryBuilder.truthy].
    change (QueryBuilder.buildCreateTable (tableName metadata)
              (map toColumnDef (columns metadata)))
      with (String "C"
              ("REATE TABLE IF NOT EXISTS " ++ tableName metadata ++ " ("
               ++ join ", "
                    (map QueryBuilder.columnDef
                       (map toColumnDef (columns metadata)))
               ++ ")")).
    rewrite execute_runAsync; [|exact Hs|reflexivity|discriminate].
    destruct (Hruns (issued s)
                (String "C"
                   ("REATE TABLE IF NOT EXISTS " ++ tableName metadata ++ " ("
                    ++ join ", "
                         (map QueryBuilder.columnDef
                            (map toColumnDef (columns metadata)))
                    ++ ")"))) as [[id ch] Hrun].
    rewrite Hrun. unfold sent. now rewrite Hs. }
  subst once twice. rewrite (Hsync st Hconn). cbn [fst snd].
  rewrite (Hsync (sent st (fst create) []) eq_refl).
  cbn [fst snd sent issued].
  split; [reflexivity|split; [reflexivity|]].
  now rewrite <- app_assoc.
Qed.

Lemma sync_twice_creates_twice_witness :
  let st := {| connected := true; issued := [] |} in
  let create :=
    ("CREATE TABLE IF NOT EXISTS users ("
     ++ "id INTEGER PRIMARY KEY AUTOINCREMENT NOT NULL, email TEXT, "
     ++ "name TEXT, age INTEGER, createdAt TEXT)", @nil JSValue) in
  issued (snd (sync mockSQLite userTables User None
                 (snd (sync mockSQLite userTables User None st))))
  = [create; create].
Proof.
  intros st create.
  refine (proj2 (proj2 (sync_twice_creates_twice mockSQLite userTables User
                          _ st eq_refl _ eq_refl
                          (fun _ _ => ex_intro _ (1%Z, 1%Z) eq_refl)))).
  discriminate.
Defined.

End NullAndSync.
